(** * ceriasimtools: the ceria slab builder ([slab_builder.py])

    A shallow embedding of the four functions of [slab_builder.py]
    ([ceria_primitive], [ceria_crystallographic], [orthogonalize_111],
    [slab]) and the properties its specification states about them.

    Numbers.  Every real quantity (lattice parameter, coordinates, angles)
    is a rational of type [Q]; a finite double is the rational it denotes.
    [orthogonalize_111] computes as the code does in binary64: the two
    subtractions of its loop are rounded to the nearest double, ties to
    even ([round64]), and its comparison is the exact one between two
    doubles.  Not-a-number, the infinities and a difference beyond the
    largest double are outside the model.  The linear algebra behind the
    accessors of [Atoms] that the cell builders use is exact.  Equalities
    between computed coordinates are stated with [==] (equality of
    rationals), and [=] is used where the code stores a value untouched.

    The atomistic toolkit.  [ase.Atoms] is modelled as a record with the
    arrays the code reads and writes (symbols, Cartesian positions, cell,
    periodicity flags); its accessors are modelled from their documented
    behaviour.  The routines of [ase.build] ([bulk], [surface], [molecule],
    [add_adsorbate], [sort]) and the methods [repeat] and [rotate] are
    collaborators: they are parameters of the development, every call to
    one of them is recorded in a log, and an error they raise propagates. *)

From stdpp Require Import list strings.
From Stdlib Require Import QArith Qround Qabs Qpower Lqa Lia Permutation.
From Stdlib Require Import Floats.

Local Open Scope Q_scope.

(** ** Vectors, matrices and the [Atoms] record *)

(** The index of a Cartesian axis: 0, 1 or 2. *)
Inductive axis : Set := A0 | A1 | A2.

(** [range(3)] *)
Definition range3 : list axis := [A0; A1; A2].

Record vec3 : Set := Vec3 { c0 : Q; c1 : Q; c2 : Q }.

Record mat3 : Set := Mat3 { r0 : vec3; r1 : vec3; r2 : vec3 }.

(** [v[d]] *)
Definition vget (v : vec3) (d : axis) : Q :=
  match d with A0 => c0 v | A1 => c1 v | A2 => c2 v end.

(** [v[d] = x] *)
Definition vset (v : vec3) (d : axis) (x : Q) : vec3 :=
  match d with
  | A0 => Vec3 x (c1 v) (c2 v)
  | A1 => Vec3 (c0 v) x (c2 v)
  | A2 => Vec3 (c0 v) (c1 v) x
  end.

Definition row (m : mat3) (i : axis) : vec3 :=
  match i with A0 => r0 m | A1 => r1 m | A2 => r2 m end.

(** [m[i, j]] *)
Definition mget (m : mat3) (i j : axis) : Q := vget (row m i) j.

(** [m[i, j] = x] *)
Definition mset (m : mat3) (i j : axis) (x : Q) : mat3 :=
  match i with
  | A0 => Mat3 (vset (r0 m) j x) (r1 m) (r2 m)
  | A1 => Mat3 (r0 m) (vset (r1 m) j x) (r2 m)
  | A2 => Mat3 (r0 m) (r1 m) (vset (r2 m) j x)
  end.

(** Equality of vectors up to equality of rationals. *)
Definition veq (u v : vec3) : Prop :=
  c0 u == c0 v /\ c1 u == c1 v /\ c2 u == c2 v.

(** [ase.Atoms]: one chemical symbol and one Cartesian position per atom,
    the three lattice vectors as the rows of [cell], and one periodicity
    flag per axis. *)
Record Atoms : Set := mkAtoms {
  symbols : list string;
  positions : list vec3;
  cell : mat3;
  pbc : bool * bool * bool
}.

(** [len(atoms)] *)
Definition natoms (a : Atoms) : nat := length (positions a).

Definition get_cell (a : Atoms) : mat3 := cell a.

Definition set_cell (a : Atoms) (m : mat3) : Atoms :=
  mkAtoms (symbols a) (positions a) m (pbc a).

Definition get_positions (a : Atoms) : list vec3 := positions a.

Definition set_positions (a : Atoms) (ps : list vec3) : Atoms :=
  mkAtoms (symbols a) ps (cell a) (pbc a).

(** ** Binary64 arithmetic on rationals *)

(** The integer nearest to [x], the even one of the two when [x] lies
    halfway between them. *)
Definition rhe (x : Q) : Z :=
  let f := Qfloor x in
  match Qcompare (x - inject_Z f) (1 # 2) with
  | Lt => f
  | Gt => (f + 1)%Z
  | Eq => if Z.even f then f else (f + 1)%Z
  end.

(** The integer part of the binary logarithm of a positive rational. *)
Definition Qlog2 (q : Q) : Z :=
  if Qle_bool 1 q then Z.log2 (Qfloor q)
  else (- Z.log2_up (Qceiling (/ q)))%Z.

(** The exponent of the last place of the doubles around [q]: 52 below
    the exponent of [q], and never below that of the subnormal doubles. *)
Definition ulp_exp (q : Q) : Z := Z.max (Qlog2 (Qabs q) - 52) (-1074).

(** [q] rounded to a multiple of [2 ^ k]. *)
Definition round_at (k : Z) (q : Q) : Q :=
  inject_Z (rhe (q * 2 ^ (- k))) * 2 ^ k.

(** The double nearest to [q] (round to nearest, ties to even). *)
Definition round64 (q : Q) : Q :=
  if Qeq_bool q 0 then 0 else round_at (ulp_exp q) q.

(** [x - y] on doubles. *)
Definition fsub (x y : Q) : Q := round64 (x - y).

(** The largest double, and the rationals that are doubles. *)
Definition max64 : Q := inject_Z (2 ^ 53 - 1) * 2 ^ 971.

Definition double (q : Q) : Prop := round64 q == q /\ Qabs q <= max64.

(** The rational a primitive float denotes (0 for the values that denote
    none), to compare [round64] with the machine's arithmetic. *)
Definition F2Q (f : float) : Q :=
  match Prim2SF f with
  | S754_finite s m e =>
      (if s then -1 else 1) * inject_Z (Zpos m) * 2 ^ e
  | _ => 0
  end.

(** ** [orthogonalize_111] *)

(** The wrap tolerance: the double the literal [0.05] denotes. *)
Definition tol : Q := round64 0.05.

(** [a >= b] on numbers, as a boolean. *)
Definition geb (a b : Q) : bool := Qle_bool b a.

(** The body of the inner loop:
    [if positions[i_pos, i_dir] >= cell[i_dir, i_dir]-0.05:
         positions[i_pos, i_dir] -= cell[i_dir, i_dir]].
    The loops only produce indices within the array; an index outside it
    leaves the array as it is. *)
Definition wrap_step (cell : mat3) (i_pos : nat) (positions : list vec3)
    (i_dir : axis) : list vec3 :=
  match positions !! i_pos with
  | Some p =>
      if geb (vget p i_dir) (fsub (mget cell i_dir i_dir) tol)
      then <[i_pos := vset p i_dir (fsub (vget p i_dir) (mget cell i_dir i_dir))]>
             positions
      else positions
  | None => positions
  end.

(** [for i_dir in range(3): ...] *)
Definition wrap_atom (cell : mat3) (positions : list vec3) (i_pos : nat)
    : list vec3 :=
  fold_left (wrap_step cell i_pos) range3 positions.

(** [for i_pos in range(len(positions)): ...] *)
Definition wrap_positions (cell : mat3) (positions : list vec3) : list vec3 :=
  fold_left (wrap_atom cell) (seq 0 (length positions)) positions.

Definition orthogonalize_111 (slab : Atoms) : Atoms :=
  let cell := get_cell slab in
  let cell := mset cell A1 A0 0 in
  let slab := set_cell slab cell in
  let positions := get_positions slab in
  let positions := wrap_positions cell positions in
  set_positions slab positions.

(** ** Errors and the log of toolkit calls *)

Inductive exn : Set :=
| IndexError
| LinAlgError
| AssertionError
| ToolkitError (msg : string).

Inductive result (A : Type) : Type :=
| Ok (a : A)
| Raise (e : exn).
Arguments Ok {A} a.
Arguments Raise {A} e.

(** One entry per call to a collaborator, with the arguments it received. *)
Inductive call : Set :=
| Bulk (name crystalstructure : string) (a : Q)
| Surface (lattice : Atoms) (indices : Z * Z * Z) (layers : Z) (vacuum : Q)
| Repeat (atoms : Atoms) (rep : Z * Z * Z)
| Molecule (name : string)
| Rotate (atoms : Atoms) (angle : Q) (v : string)
| AddAdsorbate (slab adsorbate : Atoms) (height : Q) (position : Q * Q)
| Sort (atoms : Atoms).

(** A computation yields the calls it made and either a value or the
    exception that stopped it. *)
Definition M (A : Type) : Type := list call * result A.

Definition ret {A} (a : A) : M A := ([], Ok a).

Definition raise {A} (e : exn) : M A := ([], Raise e).

Definition bind {A B} (m : M A) (f : A -> M B) : M B :=
  match m with
  | (l, Ok a) => (l ++ fst (f a), snd (f a))
  | (l, Raise e) => (l, Raise e)
  end.

Notation "x <- m ;; k" := (bind m (fun x => k))
  (at level 100, m at next level, right associativity).

(** The calls made, and the outcome. *)
Definition log {A} (m : M A) : list call := fst m.
Definition outcome {A} (m : M A) : result A := snd m.

(** The collaborators (the external atomistic toolkit).  Each returns a
    structure or fails with a message. *)
Record Toolkit : Type := {
  tk_bulk : string -> string -> Q -> string + Atoms;
  tk_surface : Atoms -> Z * Z * Z -> Z -> Q -> string + Atoms;
  tk_repeat : Atoms -> Z * Z * Z -> string + Atoms;
  tk_molecule : string -> string + Atoms;
  tk_rotate : Atoms -> Q -> string -> string + Atoms;
  tk_add_adsorbate : Atoms -> Atoms -> Q -> Q * Q -> string + Atoms;
  tk_sort : Atoms -> string + Atoms
}.

(** A call to a collaborator: logged, and its failure raised. *)
Definition external (c : call) (r : string + Atoms) : M Atoms :=
  ([c], match r with inl msg => Raise (ToolkitError msg) | inr a => Ok a end).

(** ** Accessors of [Atoms] used by the builders *)

Definition dot (u v : vec3) : Q := c0 u * c0 v + c1 u * c1 v + c2 u * c2 v.

Definition cross (u v : vec3) : vec3 :=
  Vec3 (c1 u * c2 v - c2 u * c1 v)
       (c2 u * c0 v - c0 u * c2 v)
       (c0 u * c1 v - c1 u * c0 v).

Definition det (m : mat3) : Q := dot (r0 m) (cross (r1 m) (r2 m)).

(** [cell.cartesian_positions(f)]: the row vector [f] times the cell. *)
Definition cartesian (m : mat3) (f : vec3) : vec3 :=
  Vec3 (c0 f * c0 (r0 m) + c1 f * c0 (r1 m) + c2 f * c0 (r2 m))
       (c0 f * c1 (r0 m) + c1 f * c1 (r1 m) + c2 f * c1 (r2 m))
       (c0 f * c2 (r0 m) + c1 f * c2 (r1 m) + c2 f * c2 (r2 m)).

(** [cell.scaled_positions(p)]: the solution [f] of [f @ cell = p], by
    Cramer's rule; meaningful when [det m] is not zero. *)
Definition fractional (m : mat3) (p : vec3) : vec3 :=
  Vec3 (dot p (cross (r1 m) (r2 m)) / det m)
       (dot p (cross (r2 m) (r0 m)) / det m)
       (dot p (cross (r0 m) (r1 m)) / det m).

(** [x % 1.0] *)
Definition mod1 (x : Q) : Q := x - inject_Z (Qfloor x).

(** [fractional[:, i] %= 1.0], twice, on each periodic axis [i]. *)
Definition wrap_axis (periodic : bool) (x : Q) : Q :=
  if periodic then mod1 (mod1 x) else x.

Definition wrap_pbc (pbc : bool * bool * bool) (f : vec3) : vec3 :=
  let '(p0, p1, p2) := pbc in
  Vec3 (wrap_axis p0 (c0 f)) (wrap_axis p1 (c1 f)) (wrap_axis p2 (c2 f)).

Definition diag_cell (a b c : Q) : mat3 :=
  Mat3 (Vec3 a 0 0) (Vec3 0 b 0) (Vec3 0 0 c).

(** [cell.rank]: the number of lattice vectors that are not zero. *)
Definition nonzero (v : vec3) : bool :=
  negb (Qeq_bool (c0 v) 0 && Qeq_bool (c1 v) 0 && Qeq_bool (c2 v) 0).

Definition rank (m : mat3) : nat :=
  length (List.filter nonzero [r0 m; r1 m; r2 m]).

(** [cell.complete()]: a cell whose three lattice vectors are zero is
    replaced by the unit cell, and a cell of rank 3 is kept.  With one or
    two zero vectors the library adds unit normals to the others (a norm,
    a singular value decomposition), which the rationals do not express:
    the model keeps such a cell as it is, and the statements below that
    read scaled positions assume an invertible or an entirely zero
    cell. *)
Definition complete (m : mat3) : mat3 :=
  if (rank m =? 0)%nat then diag_cell 1 1 1 else m.

(** [atoms.get_scaled_positions()]: the positions solved against the
    completed cell, wrapped on the periodic axes.  A completed cell that
    is not invertible makes the linear solver raise. *)
Definition get_scaled_positions (a : Atoms) : M (list vec3) :=
  let m := complete (cell a) in
  if Qeq_bool (det m) 0 then raise LinAlgError
  else ret (map (fun p => wrap_pbc (pbc a) (fractional m p)) (positions a)).

(** [atoms.set_scaled_positions(scaled)] *)
Definition set_scaled_positions (a : Atoms) (scaled : list vec3) : Atoms :=
  set_positions a (map (cartesian (complete (cell a))) scaled).

(** [arr[i] = v] on an array of rows, for an index that is not negative. *)
Definition setitem (arr : list vec3) (i : nat) (v : vec3) : M (list vec3) :=
  if (i <? length arr)%nat then ret (<[i := v]> arr) else raise IndexError.

(** [atoms[i]] for an integer [i]: the position of the atom the view
    refers to.  A negative index counts from the end. *)
Definition getitem (a : Atoms) (i : Z) : M vec3 :=
  let n := Z.of_nat (natoms a) in
  if ((i <? - n) || (n <=? i))%Z then raise IndexError
  else
    match positions a !! Z.to_nat (if (i <? 0)%Z then n + i else i)%Z with
    | Some p => ret p
    | None => raise IndexError
    end.

(** [atom.x], [atom.y] *)
Definition atom_x (p : vec3) : Q := c0 p.
Definition atom_y (p : vec3) : Q := c1 p.

(** The chemical symbols of a formula string without counts: a capital
    letter starts a symbol, the small letters after it belong to it. *)
Definition is_lower (c : Ascii.ascii) : bool :=
  let n := Ascii.nat_of_ascii c in ((97 <=? n) && (n <=? 122))%nat.

Fixpoint split_symbols (s : string) : string * list string :=
  match s with
  | EmptyString => (EmptyString, [])
  | String c rest =>
      let (low, syms) := split_symbols rest in
      if is_lower c then (String c low, syms)
      else (EmptyString, String c low :: syms)
  end.

Definition string2symbols (s : string) : list string := snd (split_symbols s).

(** [Atoms(symbols=..., scaled_positions=..., cell=[a, b, c], pbc=...)]:
    three cell lengths give a diagonal cell, and one flag sets all three
    periodicity flags.  Given scaled positions, the constructor asserts
    that the cell has rank 3. *)
Definition Atoms_scaled (symbols : string) (scaled_positions : list vec3)
    (lengths : Q * Q * Q) (pbc : bool) : M Atoms :=
  let '(a, b, c) := lengths in
  let m := diag_cell a b c in
  if (rank m =? 3)%nat then
    ret (mkAtoms (string2symbols symbols) (map (cartesian m) scaled_positions)
                 m (pbc, pbc, pbc))
  else raise AssertionError.

(** ** The builders *)

Section Builders.

Variable tk : Toolkit.

Definition bulk (name crystalstructure : string) (a : Q) : M Atoms :=
  external (Bulk name crystalstructure a) (tk_bulk tk name crystalstructure a).

Definition surface (lattice : Atoms) (indices : Z * Z * Z) (layers : Z)
    (vacuum : Q) : M Atoms :=
  external (Surface lattice indices layers vacuum)
           (tk_surface tk lattice indices layers vacuum).

Definition repeat (atoms : Atoms) (rep : Z * Z * Z) : M Atoms :=
  external (Repeat atoms rep) (tk_repeat tk atoms rep).

Definition molecule (name : string) : M Atoms :=
  external (Molecule name) (tk_molecule tk name).

Definition rotate (atoms : Atoms) (angle : Q) (v : string) : M Atoms :=
  external (Rotate atoms angle v) (tk_rotate tk atoms angle v).

Definition add_adsorbate (slab adsorbate : Atoms) (height : Q)
    (position : Q * Q) : M Atoms :=
  external (AddAdsorbate slab adsorbate height position)
           (tk_add_adsorbate tk slab adsorbate height position).

Definition sort (atoms : Atoms) : M Atoms :=
  external (Sort atoms) (tk_sort tk atoms).

Definition ceria_primitive (cellparam : Q) : M Atoms :=
  ceria <- bulk "CeO2" "fluorite" cellparam ;;
  scaled_pos <- get_scaled_positions ceria ;;
  scaled_pos <- setitem scaled_pos 0 (Vec3 0.5 0.5 0.5) ;;
  let ceria := set_scaled_positions ceria scaled_pos in
  ret ceria.

Definition ceria_crystallographic (cellparam : Q) : M Atoms :=
  Atoms_scaled "CeCeCeCeOOOOOOOO"
    [ Vec3 0 0 0;
      Vec3 0.5 0.5 0;
      Vec3 0.5 0 0.5;
      Vec3 0 0.5 0.5;
      Vec3 0.25 0.25 0.25;
      Vec3 0.25 0.25 0.75;
      Vec3 0.25 0.75 0.25;
      Vec3 0.75 0.25 0.25;
      Vec3 0.25 0.75 0.75;
      Vec3 0.75 0.25 0.75;
      Vec3 0.75 0.75 0.25;
      Vec3 0.75 0.75 0.75 ]
    (cellparam, cellparam, cellparam)
    true.

(** [indices == (1, 1, 1)] *)
Definition is_111 (indices : Z * Z * Z) : bool :=
  let '(h, k, l) := indices in ((h =? 1) && (k =? 1) && (l =? 1))%Z.

(** The body of [if waterspecies == 'a':] in [slab]: the molecule is built
    and rotated, then the arguments of [add_adsorbate] are evaluated
    ([slab[-3]] once for [x] and once for [y]). *)
Definition add_water (slab : Atoms) : M Atoms :=
  water <- molecule "H2O" ;;
  water <- rotate water 80 "z" ;;
  water <- rotate water (-60) "x" ;;
  water <- rotate water 50 "y" ;;
  ax <- getitem slab (-3) ;;
  ay <- getitem slab (-3) ;;
  add_adsorbate slab water 2 (atom_x ax + 0.6, atom_y ay - 0.3).

(** [slab.get_chemical_symbols()] before the sort only reads the symbols
    and discards them; it has no counterpart here. *)
Definition slab (cellparam vacuum : Q) (layers : Z)
    (repetitions indices : Z * Z * Z) (waterspecies : string) : M Atoms :=
  ceria <- (if is_111 indices then ceria_primitive cellparam
            else ceria_crystallographic cellparam) ;;
  slab <- surface ceria indices layers vacuum ;;
  slab <- repeat slab repetitions ;;
  slab <- (if String.eqb waterspecies "a" then add_water slab
           else ret slab) ;;
  sort slab.

End Builders.

(** ** Reading the log *)

(** The structure [slab] hands to the surface cutter: the value of
    [ceria] after the statement [if indices == (1, 1, 1): ... else: ...]. *)
Definition bulk_cell (tk : Toolkit) (indices : Z * Z * Z) (cellparam : Q)
    : M Atoms :=
  if is_111 indices then ceria_primitive tk cellparam
  else ceria_crystallographic cellparam.

(** Calls that build, turn or place the water molecule. *)
Definition is_water_call (c : call) : bool :=
  match c with
  | Molecule _ | Rotate _ _ _ | AddAdsorbate _ _ _ _ => true
  | _ => false
  end.

Definition is_surface_call (c : call) : bool :=
  match c with Surface _ _ _ _ => true | _ => false end.

(** ** What the loops of [orthogonalize_111] compute, atom by atom *)

(** One coordinate [x] along an axis of diagonal length [L]. *)
Definition wrap_coord (L x : Q) : Q :=
  if geb x (fsub L tol) then fsub x L else x.

Definition wrap_row (cell : mat3) (p : vec3) : vec3 :=
  Vec3 (wrap_coord (mget cell A0 A0) (c0 p))
       (wrap_coord (mget cell A1 A1) (c1 p))
       (wrap_coord (mget cell A2 A2) (c2 p)).

(** Every coordinate of every atom lies strictly below the diagonal length
    of its axis minus the tolerance, the difference being the double the
    code compares with. *)
Definition wrapped (s : Atoms) : Prop :=
  forall i p d, positions s !! i = Some p ->
    vget p d < fsub (mget (cell s) d d) tol.

(** ** Contracts of the collaborators *)

(** A coordinate on a periodic axis lies in [[0, 1)]. *)
Definition in_unit (periodic : bool) (x : Q) : Prop :=
  periodic = true -> 0 <= x /\ x < 1.

Definition in_cell (flags : bool * bool * bool) (f : vec3) : Prop :=
  let '(p0, p1, p2) := flags in
  in_unit p0 (c0 f) /\ in_unit p1 (c1 f) /\ in_unit p2 (c2 f).

(** Modelled from the spec: the invariants of a structure (the lattice
    matrix is invertible, fractional coordinates lie in [[0, 1)]). *)
Definition well_formed (s : Atoms) : Prop :=
  ~ det (cell s) == 0 /\
  forall i p, positions s !! i = Some p ->
    in_cell (pbc s) (fractional (cell s) p).

(** Modelled from the spec: the water molecule has the atoms O, H, H; a
    rotation keeps the atoms of a structure; the adsorbate placer appends
    the adsorbate's atoms to the slab's; the sorter permutes the atoms. *)
Record adsorption_contract (tk : Toolkit) : Prop := {
  molecule_water : forall w, tk_molecule tk "H2O" = inr w ->
    symbols w = ["O"; "H"; "H"] /\ natoms w = 3%nat;
  rotate_keeps : forall w angle v w', tk_rotate tk w angle v = inr w' ->
    symbols w' = symbols w /\ natoms w' = natoms w;
  adsorbate_appended : forall s w h xy s',
    tk_add_adsorbate tk s w h xy = inr s' ->
    symbols s' = symbols s ++ symbols w /\
    natoms s' = (natoms s + natoms w)%nat;
  sort_permutes : forall s s', tk_sort tk s = inr s' ->
    Permutation (symbols s') (symbols s) /\ natoms s' = natoms s
}.

(** ** A small toolkit on which the builders can be run *)

Module Demo.

Definition vadd (u v : vec3) : vec3 :=
  Vec3 (c0 u + c0 v) (c1 u + c1 v) (c2 u + c2 v).

Definition vscale (k : Q) (v : vec3) : vec3 :=
  Vec3 (k * c0 v) (k * c1 v) (k * c2 v).

(** The fcc primitive cell of lattice parameter [a], one cation and one
    anion. *)
Definition bulk (name crystalstructure : string) (a : Q) : string + Atoms :=
  if Qle_bool a 0 then inl "lattice parameter must be positive"%string
  else
    let b := a / 2 in
    inr (mkAtoms ["Ce"; "O"]%string
                 [Vec3 0 0 0; Vec3 (a / 4) (a / 4) (a / 4)]
                 (Mat3 (Vec3 0 b b) (Vec3 b 0 b) (Vec3 b b 0))
                 (true, true, true)).

(** [layers] copies of the cell stacked along the third lattice vector,
    with [vacuum] added on top. *)
Definition surface (lattice : Atoms) (indices : Z * Z * Z) (layers : Z)
    (vacuum : Q) : string + Atoms :=
  if (layers <=? 0)%Z then inl "no layers"%string
  else
    let ks := seq 0 (Z.to_nat layers) in
    let shift (k : nat) := vscale (inject_Z (Z.of_nat k)) (r2 (cell lattice)) in
    inr (mkAtoms
           (flat_map (fun _ => symbols lattice) ks)
           (flat_map (fun k => map (vadd (shift k)) (positions lattice)) ks)
           (Mat3 (r0 (cell lattice)) (r1 (cell lattice))
                 (vadd (vscale (inject_Z layers) (r2 (cell lattice)))
                       (Vec3 0 0 vacuum)))
           (true, true, false)).

Definition repeat (atoms : Atoms) (rep : Z * Z * Z) : string + Atoms :=
  let '(n0, n1, n2) := rep in
  if ((n0 =? 1) && (n1 =? 1) && (n2 =? 1))%Z then inr atoms
  else inl "only the single cell is supported"%string.

Definition molecule (name : string) : string + Atoms :=
  if String.eqb name "H2O" then
    inr (mkAtoms ["O"; "H"; "H"]%string
                 [Vec3 0 0 0.119; Vec3 0 0.763 (-0.477); Vec3 0 (-0.763) (-0.477)]
                 (Mat3 (Vec3 0 0 0) (Vec3 0 0 0) (Vec3 0 0 0))
                 (false, false, false))
  else inl "unknown molecule"%string.

(** The orientation is not tracked. *)
Definition rotate (atoms : Atoms) (angle : Q) (v : string) : string + Atoms :=
  inr atoms.

Definition top (ps : list vec3) : option Q :=
  match ps with
  | [] => None
  | p :: ps => Some (fold_left (fun z q => if Qle_bool z (c2 q) then c2 q else z)
                               ps (c2 p))
  end.

(** The adsorbate is moved so that its first atom sits at [(x, y)],
    [height] above the highest atom of the slab, and appended. *)
Definition add_adsorbate (slab adsorbate : Atoms) (height : Q)
    (position : Q * Q) : string + Atoms :=
  match top (positions slab), positions adsorbate with
  | Some z, a0 :: _ =>
      let d := Vec3 (fst position - c0 a0) (snd position - c1 a0)
                    (z + height - c2 a0) in
      inr (mkAtoms (symbols slab ++ symbols adsorbate)
                   (positions slab ++ map (vadd d) (positions adsorbate))
                   (cell slab) (pbc slab))
  | _, _ => inl "empty structure"%string
  end.

Fixpoint insert_atom (a : string * vec3) (l : list (string * vec3))
    : list (string * vec3) :=
  match l with
  | [] => [a]
  | b :: l' => if String.leb (fst a) (fst b) then a :: l
               else b :: insert_atom a l'
  end.

Definition sort_atoms (l : list (string * vec3)) : list (string * vec3) :=
  fold_right insert_atom [] l.

(** Atoms ordered by chemical symbol. *)
Definition sort (atoms : Atoms) : string + Atoms :=
  if (length (symbols atoms) =? length (positions atoms))%nat then
    let l := sort_atoms (combine (symbols atoms) (positions atoms)) in
    inr (mkAtoms (map fst l) (map snd l) (cell atoms) (pbc atoms))
  else inl "inconsistent arrays"%string.

Definition toolkit : Toolkit :=
  Build_Toolkit bulk surface repeat molecule rotate add_adsorbate sort.

(** A slab cell of side 10 with one atom just below the upper faces and
    one in the middle. *)
Definition cell10 : Atoms :=
  mkAtoms ["Ce"; "O"]%string
          [Vec3 (round64 9.99) 9.5 (round64 9.96); Vec3 5 5 5]
          (Mat3 (Vec3 10 0 0) (Vec3 5 10 0) (Vec3 0 0 10))
          (true, true, false).

(** Three atoms in a cubic cell, the least [slab[-3]] can index. *)
Definition trio : Atoms :=
  mkAtoms ["Ce"; "O"; "O"]%string [Vec3 0 0 0; Vec3 1 1 1; Vec3 2 2 2]
          (diag_cell 10 10 10) (true, true, false).

(** One atom at [(x, 0, 0)] in a cubic cell of side [L]. *)
Definition one_atom (L x : Q) : Atoms :=
  mkAtoms ["Ce"]%string [Vec3 x 0 0] (diag_cell L L L) (true, true, false).

End Demo.

(** ** The fluorite cell of the library *)

Module Ase.

(** Modelled from the library: [ase.build.bulk] for the name ['CeO2'] and
    the prototype ['fluorite'] returns three atoms, one per symbol of the
    formula, in the fcc primitive cell of lattice parameter [a]: the
    cation at the origin and the anions at 1/4 and 3/4 of the cube
    diagonal; all periodicity flags are set. *)
Definition bulk (name crystalstructure : string) (a : Q) : string + Atoms :=
  if (String.eqb name "CeO2" && String.eqb crystalstructure "fluorite")%bool
  then
    let b := a / 2 in
    inr (mkAtoms ["Ce"; "O"; "O"]%string
                 [Vec3 0 0 0; Vec3 (a / 4) (a / 4) (a / 4);
                  Vec3 (3 * a / 4) (3 * a / 4) (3 * a / 4)]
                 (Mat3 (Vec3 0 b b) (Vec3 b 0 b) (Vec3 b b 0))
                 (true, true, true))
  else inl "not modelled"%string.

Definition toolkit : Toolkit :=
  Build_Toolkit bulk Demo.surface Demo.repeat Demo.molecule Demo.rotate
                Demo.add_adsorbate Demo.sort.

End Ase.

(** ** Two more bulk constructors to run [ceria_primitive] on *)

Module Fluorite.

(** The fcc primitive cell of lattice parameter [a] with one cation and
    two anions, the second anion given outside the cell (one lattice
    vector beyond the fractional coordinate (3/4, 3/4, 3/4)). *)
Definition bulk (name crystalstructure : string) (a : Q) : string + Atoms :=
  if Qle_bool a 0 then inl "lattice parameter must be positive"%string
  else
    let b := a / 2 in
    inr (mkAtoms ["Ce"; "O"; "O"]%string
                 [Vec3 0 0 0; Vec3 (a / 4) (a / 4) (a / 4);
                  Vec3 (3 * a / 4) (5 * a / 4) (5 * a / 4)]
                 (Mat3 (Vec3 0 b b) (Vec3 b 0 b) (Vec3 b b 0))
                 (true, true, true)).

Definition toolkit : Toolkit :=
  Build_Toolkit bulk Demo.surface Demo.repeat Demo.molecule Demo.rotate
                Demo.add_adsorbate Demo.sort.

(** A constructor that returns a cell without atoms. *)
Definition empty_bulk (name crystalstructure : string) (a : Q)
    : string + Atoms :=
  inr (mkAtoms [] [] (diag_cell a a a) (true, true, true)).

Definition empty_toolkit : Toolkit :=
  Build_Toolkit empty_bulk Demo.surface Demo.repeat Demo.molecule Demo.rotate
                Demo.add_adsorbate Demo.sort.

(** The structure [Atoms()] of the library: no atoms, and a cell whose
    three lattice vectors are zero. *)
Definition zero_bulk (name crystalstructure : string) (a : Q)
    : string + Atoms :=
  inr (mkAtoms [] [] (diag_cell 0 0 0) (false, false, false)).

Definition zero_toolkit : Toolkit :=
  Build_Toolkit zero_bulk Demo.surface Demo.repeat Demo.molecule Demo.rotate
                Demo.add_adsorbate Demo.sort.

End Fluorite.

(** The centre of a cell: half the sum of its three lattice vectors. *)
Definition centre (m : mat3) : vec3 :=
  Vec3 ((c0 (r0 m) + c0 (r1 m) + c0 (r2 m)) / 2)
       ((c1 (r0 m) + c1 (r1 m) + c1 (r2 m)) / 2)
       ((c2 (r0 m) + c2 (r1 m) + c2 (r2 m)) / 2).

Definition is_bulk_call (c : call) : bool :=
  match c with Bulk _ _ _ => true | _ => false end.

(** * Properties *)

(** ** The definitions on small inputs *)

Example string2symbols_ceria :
  string2symbols "CeCeCeCeOOOOOOOO" =
  ["Ce"; "Ce"; "Ce"; "Ce"; "O"; "O"; "O"; "O"; "O"; "O"; "O"; "O"]%string.
Proof. reflexivity. Qed.

Example orthogonalize_cell10 :
  cell (orthogonalize_111 Demo.cell10) =
  Mat3 (Vec3 10 0 0) (Vec3 0 10 0) (Vec3 0 0 10).
Proof. reflexivity. Qed.

Example getitem_last : getitem Demo.cell10 (-1) = ([], Ok (Vec3 5 5 5)).
Proof. reflexivity. Qed.

Example getitem_third_last_short :
  getitem Demo.cell10 (-3) = ([], Raise IndexError).
Proof. reflexivity. Qed.

Example slab_demo_log :
  map is_water_call
      (log (slab Demo.toolkit 5 8 3 (1, 1, 1)%Z (1, 1, 1)%Z "a")) =
  [false; false; false; true; true; true; true; true; false].
Proof. vm_compute. reflexivity. Qed.

Example slab_demo_symbols :
  match outcome (slab Demo.toolkit 5 8 3 (1, 1, 1)%Z (1, 1, 1)%Z "a") with
  | Ok r => symbols r
  | Raise _ => []
  end = ["Ce"; "Ce"; "Ce"; "H"; "H"; "O"; "O"; "O"; "O"]%string.
Proof. vm_compute. reflexivity. Qed.

(** ** Numbers *)

Lemma geb_true (a b : Q) : geb a b = true <-> b <= a.
Proof. unfold geb. apply Qle_bool_iff. Qed.

Lemma geb_false (a b : Q) : geb a b = false <-> a < b.
Proof.
  unfold geb. split; intros H.
  - apply Qnot_le_lt. intros Hle. apply Qle_bool_iff in Hle. congruence.
  - destruct (Qle_bool b a) eqn:E; [|reflexivity].
    apply Qle_bool_iff in E. exfalso. revert E. apply Qlt_not_le, H.
Qed.

Lemma wrap_coord_above (L x : Q) :
  fsub L tol <= x -> wrap_coord L x = fsub x L.
Proof. intros H. unfold wrap_coord. apply geb_true in H. now rewrite H. Qed.

Lemma wrap_coord_below (L x : Q) : x < fsub L tol -> wrap_coord L x = x.
Proof. intros H. unfold wrap_coord. apply geb_false in H. now rewrite H. Qed.

Lemma wrap_row_get (m : mat3) (p : vec3) (d : axis) :
  vget (wrap_row m p) d = wrap_coord (mget m d d) (vget p d).
Proof. now destruct d. Qed.

Lemma mset_diag (m : mat3) (x : Q) (d : axis) :
  mget (mset m A1 A0 x) d d = mget m d d.
Proof. now destruct d. Qed.

(** ** Rounding to the nearest double *)

Lemma rhe_floor (x : Q) : (Qfloor x <= rhe x <= Qfloor x + 1)%Z.
Proof.
  unfold rhe. destruct (Qcompare _ _); [destruct (Z.even _)| |]; lia.
Qed.

Lemma rhe_mono (x y : Q) : x <= y -> (rhe x <= rhe y)%Z.
Proof.
  intros Hxy. pose proof (Qfloor_resp_le x y Hxy) as Hf.
  pose proof (rhe_floor x) as Hx. pose proof (rhe_floor y) as Hy.
  destruct (Z.eq_dec (Qfloor x) (Qfloor y)) as [E|E]; [|lia].
  unfold rhe in *. rewrite <- E in *.
  destruct (Qcompare_spec (x - inject_Z (Qfloor x)) (1#2)) as [Cx|Cx|Cx];
    destruct (Qcompare_spec (y - inject_Z (Qfloor x)) (1#2)) as [Cy|Cy|Cy];
    try lia; try (destruct (Z.even (Qfloor x)); lia); exfalso; lra.
Qed.

Lemma rhe_Z (n : Z) : rhe (inject_Z n) = n.
Proof.
  unfold rhe. rewrite Qfloor_Z.
  assert (E : inject_Z n - inject_Z n == 0) by ring.
  now rewrite E.
Qed.

Lemma rhe_ge (n : Z) (x : Q) : inject_Z n <= x -> (n <= rhe x)%Z.
Proof. intros H. rewrite <- (rhe_Z n). now apply rhe_mono. Qed.

Lemma rhe_le (n : Z) (x : Q) : x <= inject_Z n -> (rhe x <= n)%Z.
Proof. intros H. rewrite <- (rhe_Z n). now apply rhe_mono. Qed.

Lemma pow2_pos (k : Z) : 0 < 2 ^ k.
Proof. apply Qpower_0_lt. reflexivity. Qed.

Lemma pow2_plus (a b : Z) : 2 ^ (a + b) == 2 ^ a * 2 ^ b.
Proof. apply Qpower_plus. discriminate. Qed.

Lemma pow2_cancel (k : Z) : 2 ^ k * 2 ^ (- k) == 1.
Proof. rewrite <- pow2_plus, Z.add_opp_diag_r. reflexivity. Qed.

Lemma pow2_le (a b : Z) : (a <= b)%Z -> 2 ^ a <= 2 ^ b.
Proof. intros H. apply Qpower_le_compat_l; [exact H|discriminate]. Qed.

Lemma pow2_Z (n : Z) : (0 <= n)%Z -> inject_Z (2 ^ n) == 2 ^ n.
Proof. intros H. now rewrite Zpower_Qpower. Qed.

(** [Qlog2] is the integer part of the binary logarithm. *)
Lemma Qlog2_spec (q : Q) : 0 < q -> 2 ^ Qlog2 q <= q /\ q < 2 ^ (Qlog2 q + 1).
Proof.
  intros Hq. unfold Qlog2. destruct (Qle_bool 1 q) eqn:E.
  - apply Qle_bool_iff in E.
    assert (Hn : (1 <= Qfloor q)%Z).
    { change 1%Z with (Qfloor 1). now apply Qfloor_resp_le. }
    destruct (Z.log2_spec (Qfloor q)) as [Hl Hu]; [lia|].
    pose proof (Z.log2_nonneg (Qfloor q)) as H0.
    split.
    + rewrite <- pow2_Z by exact H0.
      apply Qle_trans with (inject_Z (Qfloor q)); [|apply Qfloor_le].
      now rewrite <- Zle_Qle.
    + rewrite <- pow2_Z by lia.
      apply Qlt_le_trans with (inject_Z (Qfloor q + 1)); [apply Qlt_floor|].
      rewrite <- Zle_Qle. rewrite <- Z.add_1_r in Hu. lia.
  - assert (Hlt : q < 1).
    { apply Qnot_le_lt. intros H. apply Qle_bool_iff in H. congruence. }
    assert (Hnz : ~ q == 0) by lra.
    assert (Hinv : 1 < / q).
    { apply Qlt_shift_inv_l; [exact Hq|]. lra. }
    set (c := Qceiling (/ q)).
    assert (Hc : (1 < c)%Z).
    { rewrite Zlt_Qlt. apply Qlt_le_trans with (/ q); [exact Hinv|].
      apply Qle_ceiling. }
    destruct (Z.log2_up_spec c Hc) as [Hl Hu].
    pose proof (Z.log2_up_nonneg c) as H0.
    assert (Hpos : (0 < Z.log2_up c)%Z) by (apply Z.log2_up_pos; exact Hc).
    assert (HA : / q <= 2 ^ Z.log2_up c).
    { apply Qle_trans with (inject_Z c); [apply Qle_ceiling|].
      rewrite <- pow2_Z by exact H0. now rewrite <- Zle_Qle. }
    assert (HB : 2 ^ (Z.log2_up c - 1) < / q).
    { rewrite <- pow2_Z by lia.
      apply Qle_lt_trans with (inject_Z (c - 1)); [|apply Qceiling_lt].
      rewrite <- Zle_Qle. rewrite <- Z.sub_1_r in Hl. lia. }
    split.
    + rewrite Qpower_opp. apply Qle_shift_inv_r; [apply pow2_pos|].
      rewrite <- (Qmult_inv_r q Hnz). now apply Qmult_le_l.
    + replace (- Z.log2_up c + 1)%Z with (- (Z.log2_up c - 1))%Z by lia.
      rewrite Qpower_opp. apply Qlt_shift_inv_l; [apply pow2_pos|].
      rewrite <- (Qmult_inv_r q Hnz). now apply Qmult_lt_l.
Qed.

Lemma pow2_lt_inv (a b : Z) : 2 ^ a < 2 ^ b -> (a < b)%Z.
Proof. intros H. apply (Qpower_lt_compat_l_inv 2); [exact H|reflexivity]. Qed.

Lemma Qlog2_mono (x y : Q) : 0 < x -> x <= y -> (Qlog2 x <= Qlog2 y)%Z.
Proof.
  intros Hx Hxy.
  destruct (Qlog2_spec x Hx) as [Hlx _].
  destruct (Qlog2_spec y) as [_ Huy]; [lra|].
  assert (H : 2 ^ Qlog2 x < 2 ^ (Qlog2 y + 1)) by lra.
  apply pow2_lt_inv in H. lia.
Qed.

Lemma ulp_exp_mono (x y : Q) :
  0 < Qabs x -> Qabs x <= Qabs y -> (ulp_exp x <= ulp_exp y)%Z.
Proof.
  intros Hx Hxy. unfold ulp_exp.
  pose proof (Qlog2_mono _ _ Hx Hxy). lia.
Qed.

(** The scaled magnitude lies below 2^53, and at or above 2^52 unless the
    exponent is the smallest one. *)
Lemma scaled_lt (q : Q) :
  0 < Qabs q -> Qabs q * 2 ^ (- ulp_exp q) < 2 ^ 53.
Proof.
  intros Hq. destruct (Qlog2_spec _ Hq) as [_ Hu].
  assert (Hk : (Qlog2 (Qabs q) + 1 <= ulp_exp q + 53)%Z) by (unfold ulp_exp; lia).
  apply Qlt_le_trans with (2 ^ (ulp_exp q + 53) * 2 ^ (- ulp_exp q)).
  - apply Qmult_lt_compat_r; [apply pow2_pos|].
    apply Qlt_le_trans with (1 := Hu). now apply pow2_le.
  - rewrite <- pow2_plus. apply pow2_le. lia.
Qed.

Lemma scaled_ge (q : Q) :
  0 < Qabs q -> (-1074 < ulp_exp q)%Z -> 2 ^ 52 <= Qabs q * 2 ^ (- ulp_exp q).
Proof.
  intros Hq Hk. destruct (Qlog2_spec _ Hq) as [Hl _].
  assert (E : ulp_exp q = (Qlog2 (Qabs q) - 52)%Z) by (unfold ulp_exp in *; lia).
  apply Qle_trans with (2 ^ (ulp_exp q + 52) * 2 ^ (- ulp_exp q)).
  - rewrite <- pow2_plus. apply pow2_le. lia.
  - apply Qmult_le_compat_r; [|apply Qlt_le_weak, pow2_pos].
    rewrite E. now replace (Qlog2 (Qabs q) - 52 + 52)%Z with (Qlog2 (Qabs q)) by lia.
Qed.

Lemma ulp_exp_min (q : Q) : (-1074 <= ulp_exp q)%Z.
Proof. unfold ulp_exp. lia. Qed.

Lemma round64_at (q : Q) : ~ q == 0 -> round64 q = round_at (ulp_exp q) q.
Proof.
  intros H. unfold round64.
  destruct (Qeq_bool q 0) eqn:E; [|reflexivity].
  apply Qeq_bool_iff in E. contradiction.
Qed.

Lemma round64_zero (q : Q) : q == 0 -> round64 q = 0.
Proof. intros H. unfold round64. apply Qeq_bool_iff in H. now rewrite H. Qed.

Lemma round_at_mono (k : Z) (x y : Q) : x <= y -> round_at k x <= round_at k y.
Proof.
  intros H. unfold round_at.
  apply Qmult_le_compat_r; [|apply Qlt_le_weak, pow2_pos].
  rewrite <- Zle_Qle. apply rhe_mono.
  apply Qmult_le_compat_r; [exact H|apply Qlt_le_weak, pow2_pos].
Qed.

Lemma round_at_le (k n : Z) (q : Q) :
  q * 2 ^ (- k) <= inject_Z n -> round_at k q <= inject_Z n * 2 ^ k.
Proof.
  intros H. unfold round_at.
  apply Qmult_le_compat_r; [|apply Qlt_le_weak, pow2_pos].
  rewrite <- Zle_Qle. now apply rhe_le.
Qed.

Lemma round_at_ge (k n : Z) (q : Q) :
  inject_Z n <= q * 2 ^ (- k) -> inject_Z n * 2 ^ k <= round_at k q.
Proof.
  intros H. unfold round_at.
  apply Qmult_le_compat_r; [|apply Qlt_le_weak, pow2_pos].
  rewrite <- Zle_Qle. now apply rhe_ge.
Qed.

Lemma round64_nonneg (q : Q) : 0 <= q -> 0 <= round64 q.
Proof.
  intros H. unfold round64. destruct (Qeq_bool q 0); [lra|].
  setoid_replace 0 with (inject_Z 0 * 2 ^ ulp_exp q)
          using relation Qeq by ring.
  apply round_at_ge. change (inject_Z 0) with 0.
  apply Qmult_le_0_compat; [exact H|apply Qlt_le_weak, pow2_pos].
Qed.

Lemma round64_nonpos (q : Q) : q <= 0 -> round64 q <= 0.
Proof.
  intros H. unfold round64. destruct (Qeq_bool q 0); [lra|].
  setoid_replace 0 with (inject_Z 0 * 2 ^ ulp_exp q)
          using relation Qeq by ring.
  apply round_at_le. change (inject_Z 0) with 0.
  setoid_replace 0 with (0 * 2 ^ (- ulp_exp q))
          using relation Qeq by ring.
  apply Qmult_le_compat_r; [exact H|apply Qlt_le_weak, pow2_pos].
Qed.

Lemma pow2_53 : inject_Z (2 ^ 53) == 2 ^ 53.
Proof. reflexivity. Qed.

Lemma pow2_52 : inject_Z (2 ^ 52) == 2 ^ 52.
Proof. reflexivity. Qed.

Lemma round64_mono_pos (x y : Q) : 0 < x -> x <= y -> round64 x <= round64 y.
Proof.
  intros Hx Hxy.
  assert (Hax : Qabs x == x) by (apply Qabs_pos; lra).
  assert (Hay : Qabs y == y) by (apply Qabs_pos; lra).
  rewrite (round64_at x), (round64_at y) by lra.
  assert (Hk : (ulp_exp x <= ulp_exp y)%Z).
  { apply ulp_exp_mono; rewrite Hax, ?Hay; assumption. }
  pose proof (ulp_exp_min x) as Hmx. pose proof (ulp_exp_min y) as Hmy.
  destruct (Z.eq_dec (ulp_exp x) (ulp_exp y)) as [E|E].
  - rewrite E. now apply round_at_mono.
  - assert (Esx : x * 2 ^ (- ulp_exp x) == Qabs x * 2 ^ (- ulp_exp x)).
    { apply Qmult_comp; [now symmetry|reflexivity]. }
    assert (Esy : y * 2 ^ (- ulp_exp y) == Qabs y * 2 ^ (- ulp_exp y)).
    { apply Qmult_comp; [now symmetry|reflexivity]. }
    apply Qle_trans with (inject_Z (2 ^ 53) * 2 ^ ulp_exp x).
    + apply round_at_le. rewrite pow2_53, Esx.
      apply Qlt_le_weak, scaled_lt. rewrite Hax. exact Hx.
    + apply Qle_trans with (inject_Z (2 ^ 52) * 2 ^ ulp_exp y).
      * rewrite pow2_53, pow2_52, <- !pow2_plus. apply pow2_le. lia.
      * apply round_at_ge. rewrite pow2_52, Esy.
        apply scaled_ge; [rewrite Hay; lra|lia].
Qed.

Lemma opp_scaled (q : Q) (k : Z) : q <= 0 -> q * 2 ^ k == - (Qabs q * 2 ^ k).
Proof. intros H. rewrite (Qabs_neg q H). ring. Qed.

Lemma round64_mono_neg (x y : Q) : y < 0 -> x <= y -> round64 x <= round64 y.
Proof.
  intros Hy Hxy.
  assert (Hax : Qabs x == - x) by (apply Qabs_neg; lra).
  assert (Hay : Qabs y == - y) by (apply Qabs_neg; lra).
  rewrite (round64_at x), (round64_at y) by lra.
  assert (Hk : (ulp_exp y <= ulp_exp x)%Z).
  { apply ulp_exp_mono; rewrite Hay, ?Hax; lra. }
  pose proof (ulp_exp_min x) as Hmx. pose proof (ulp_exp_min y) as Hmy.
  destruct (Z.eq_dec (ulp_exp x) (ulp_exp y)) as [E|E].
  - rewrite E. now apply round_at_mono.
  - apply Qle_trans with (inject_Z (- 2 ^ 52) * 2 ^ ulp_exp x).
    + apply round_at_le. rewrite opp_scaled by lra.
      rewrite inject_Z_opp, pow2_52. apply Qopp_le_compat.
      apply scaled_ge; [rewrite Hax; lra|lia].
    + apply Qle_trans with (inject_Z (- 2 ^ 53) * 2 ^ ulp_exp y).
      * rewrite !inject_Z_opp, pow2_53, pow2_52.
        setoid_replace (- 2 ^ 52 * 2 ^ ulp_exp x) with (- (2 ^ (52 + ulp_exp x)))
          using relation Qeq by (rewrite pow2_plus; ring).
        setoid_replace (- 2 ^ 53 * 2 ^ ulp_exp y) with (- (2 ^ (53 + ulp_exp y)))
          using relation Qeq by (rewrite pow2_plus; ring).
        apply Qopp_le_compat, pow2_le. lia.
      * apply round_at_ge. rewrite opp_scaled by lra.
        rewrite inject_Z_opp, pow2_53. apply Qopp_le_compat.
        apply Qlt_le_weak, scaled_lt. rewrite Hay. lra.
Qed.

(** Rounding to the nearest double keeps the order. *)
Theorem round64_mono (x y : Q) : x <= y -> round64 x <= round64 y.
Proof.
  intros Hxy.
  destruct (Qlt_le_dec 0 x) as [Hx|Hx].
  - now apply round64_mono_pos.
  - destruct (Qlt_le_dec y 0) as [Hy|Hy].
    + now apply round64_mono_neg.
    + apply Qle_trans with 0; [now apply round64_nonpos|now apply round64_nonneg].
Qed.

Lemma round64_comp (x y : Q) : x == y -> round64 x == round64 y.
Proof.
  intros H. apply Qle_antisym; apply round64_mono; rewrite H; apply Qle_refl.
Qed.

(** [fsub] keeps the order of its first argument and reverses that of its
    second. *)
Lemma fsub_mono_l (x y z : Q) : x <= y -> fsub x z <= fsub y z.
Proof. intros H. apply round64_mono. lra. Qed.

Lemma fsub_mono_r (x y z : Q) : y <= z -> fsub x z <= fsub x y.
Proof. intros H. apply round64_mono. lra. Qed.

(** The double written [0.05] lies above 0.05, the one written [0.01]
    below it. *)
Lemma tol_above : 0.05 <= tol.
Proof. vm_compute. discriminate. Qed.

Lemma tol_001 : round64 0.01 <= tol.
Proof. vm_compute. discriminate. Qed.

(** ** [round64] against the machine's doubles *)

(** The tolerance is the double the source writes as [0.05]. *)
Example tol_machine : tol == F2Q 0x1.999999999999ap-5%float.
Proof. vm_compute. reflexivity. Qed.

(** [1 - 0.05] in the machine is the double nearest to 0.95, so an atom
    at the double 0.95 along an axis of length 1 meets the threshold. *)
Example threshold_unit_cell :
  fsub 1 tol == F2Q (1 - 0x1.999999999999ap-5)%float /\
  fsub 1 tol == round64 0.95 /\
  round64 0.95 == F2Q 0x1.e666666666666p-1%float.
Proof. repeat split; vm_compute; reflexivity. Qed.

Example orthogonalize_unit_cell :
  positions (orthogonalize_111 (Demo.one_atom 1 (round64 0.95))) =
  [Vec3 (fsub (round64 0.95) 1) 0 0].
Proof. vm_compute. reflexivity. Qed.

(** Differences that are not doubles are rounded. *)
Example fsub_rounds :
  fsub (2 ^ 60) 10 == 2 ^ 60 /\
  fsub (2 ^ 60) 10 == F2Q (0x1p+60 - 10)%float /\
  fsub (2 ^ 53 + 2) 1 == 2 ^ 53 /\
  fsub (2 ^ 53 + 2) 1 == F2Q (0x1.0000000000001p+53 - 1)%float /\
  fsub (fsub 10 (round64 0.01)) 10 ==
    F2Q (10 - 0x1.47ae147ae147bp-7 - 10)%float /\
  ~ fsub (fsub 10 (round64 0.01)) 10 == round64 (-0.01).
Proof.
  repeat split; try (vm_compute; reflexivity).
  intros H. vm_compute in H. discriminate.
Qed.

(** Ties go to the even neighbour, also among the subnormal numbers. *)
Example round64_ties :
  round64 (1 # 3) == F2Q (1 / 3)%float /\
  round64 (- (2 # 3)) == F2Q (- 2 / 3)%float /\
  round64 (3 * 2 ^ (-1075)) == F2Q (0x1p-1074 * 2)%float /\
  round64 (5 * 2 ^ (-1075)) == F2Q (0x1p-1074 * 2)%float /\
  round64 (2 ^ (-1075)) == 0.
Proof. repeat split; vm_compute; reflexivity. Qed.

(** An atom at the double 19.95 along an axis of length 10 comes to the
    threshold itself after one call, so a second call moves it again. *)
Example orthogonalize_twice_moves :
  fsub (round64 19.95) 10 == fsub 10 tol /\
  round64 19.95 == F2Q 0x1.3f33333333333p+4%float /\
  orthogonalize_111 (orthogonalize_111 (Demo.one_atom 10 (round64 19.95))) <>
  orthogonalize_111 (Demo.one_atom 10 (round64 19.95)).
Proof.
  split; [vm_compute; reflexivity|]. split; [vm_compute; reflexivity|].
  intros H. vm_compute in H. discriminate.
Qed.

(** ** The loops of [orthogonalize_111] *)

Lemma vset_same (p : vec3) (d : axis) : vset p d (vget p d) = p.
Proof. now destruct p, d. Qed.

(** The three steps of the inner loop rewrite the row of atom [i] and
    nothing else. *)
Lemma wrap_atom_row (m : mat3) (l : list vec3) (i : nat) (p : vec3) :
  l !! i = Some p -> wrap_atom m l i = <[i := wrap_row m p]> l.
Proof.
  intros Hp. pose proof (lookup_lt_Some _ _ _ Hp) as Hlt.
  unfold wrap_atom, range3, wrap_row, wrap_coord. cbn [fold_left].
  unfold wrap_step at 3. rewrite Hp.
  destruct (geb (vget p A0) _) eqn:E0;
    unfold wrap_step at 2;
    rewrite ?list_lookup_insert_eq by exact Hlt; rewrite ?Hp;
    cbn [vget vset c0 c1 c2]; destruct (geb (c1 p) _) eqn:E1;
    unfold wrap_step;
    rewrite ?list_lookup_insert_eq by (rewrite ?length_insert; exact Hlt);
    rewrite ?Hp; cbn [vget vset c0 c1 c2]; destruct (geb (c2 p) _) eqn:E2;
    rewrite ?list_insert_insert_eq; cbn [vget vset c0 c1 c2] in *;
    rewrite ?E0, ?E1, ?E2; try reflexivity;
    destruct p; cbn [c0 c1 c2]; symmetry; now apply list_insert_id.
Qed.

Lemma wrap_fold (m : mat3) (n : nat) : forall (k : nat) (l : list vec3),
  (k + n)%nat = length l ->
  fold_left (wrap_atom m) (seq k n) l = take k l ++ map (wrap_row m) (drop k l).
Proof.
  induction n as [|n IH]; intros k l Hlen.
  - cbn. rewrite Nat.add_0_r in Hlen. subst k.
    now rewrite drop_all, firstn_all, app_nil_r.
  - cbn [seq fold_left].
    assert (Hk : (k < length l)%nat) by lia.
    destruct (lookup_lt_is_Some_2 l k Hk) as [p Hp].
    rewrite (wrap_atom_row _ _ _ _ Hp).
    rewrite IH by (rewrite length_insert; lia).
    rewrite (drop_S _ _ _ Hp). cbn [map].
    rewrite take_insert_lt by lia.
    rewrite drop_insert_lt by lia.
    rewrite (take_S_r _ _ _ Hp).
    rewrite insert_app_r_alt by (rewrite length_take; lia).
    rewrite length_take, Nat.min_l by lia.
    rewrite Nat.sub_diag. cbn. now rewrite <- app_assoc.
Qed.

(** The two nested loops map [wrap_row] over the atoms. *)
Lemma wrap_positions_map (m : mat3) (l : list vec3) :
  wrap_positions m l = map (wrap_row m) l.
Proof.
  unfold wrap_positions. rewrite wrap_fold by reflexivity.
  now rewrite take_0, drop_0.
Qed.

Lemma orthogonalize_111_eq (s : Atoms) :
  orthogonalize_111 s =
  mkAtoms (symbols s)
          (map (wrap_row (mset (cell s) A1 A0 0)) (positions s))
          (mset (cell s) A1 A0 0) (pbc s).
Proof.
  unfold orthogonalize_111, get_cell, get_positions, set_positions, set_cell.
  cbv zeta. cbn [cell positions symbols pbc]. now rewrite wrap_positions_map.
Qed.

Lemma orthogonalize_111_cell (s : Atoms) :
  cell (orthogonalize_111 s) = mset (cell s) A1 A0 0.
Proof. now rewrite orthogonalize_111_eq. Qed.

(** What happens to the coordinate of atom [i] along axis [d]. *)
Lemma orthogonalize_111_coord (s : Atoms) (i : nat) (p : vec3) :
  positions s !! i = Some p ->
  exists p', positions (orthogonalize_111 s) !! i = Some p' /\
    forall d, vget p' d = wrap_coord (mget (cell s) d d) (vget p d).
Proof.
  intros Hp. rewrite orthogonalize_111_eq. cbn [positions].
  exists (wrap_row (mset (cell s) A1 A0 0) p). split.
  - now rewrite list_lookup_fmap, Hp.
  - intros d. now rewrite wrap_row_get, mset_diag.
Qed.

Lemma mset_twice (m : mat3) (x : Q) : mset (mset m A1 A0 x) A1 A0 x = mset m A1 A0 x.
Proof. reflexivity. Qed.

Lemma wrap_row_fixed (m : mat3) (p : vec3) :
  (forall d, vget p d < fsub (mget m d d) tol) -> wrap_row m p = p.
Proof.
  intros H. unfold wrap_row.
  pose proof (wrap_coord_below _ _ (H A0)) as H0.
  pose proof (wrap_coord_below _ _ (H A1)) as H1.
  pose proof (wrap_coord_below _ _ (H A2)) as H2.
  cbn [vget] in H0, H1, H2. rewrite H0, H1, H2.
  now destruct p.
Qed.

(** ** C3, C7, C8: [orthogonalize_111] *)

(** C3, as the specification states it, fails on the code.  The double
    written [0.95] lies below [1 - 0.05], yet on an axis of length 1 the
    atom there is moved, because the code compares with the double
    [1 - 0.05], which is that same double.  On an axis of length 10 the
    atom at the double [10 - 0.01] ends at the double difference, which
    is neither [-0.01] nor the double written [-0.01].  On an axis of
    length [2^60] the double [L - 0.5] is [L] itself, and the atom there
    is moved to 0. *)
Lemma orthogonalize_111_wraps_counterexample :
  (round64 0.95 < 1 - 0.05 /\
   positions (orthogonalize_111 (Demo.one_atom 1 (round64 0.95))) !! 0%nat
     = Some (Vec3 (fsub (round64 0.95) 1) 0 0) /\
   ~ fsub (round64 0.95) 1 == round64 0.95) /\
  (positions (orthogonalize_111 (Demo.one_atom 10 (fsub 10 (round64 0.01)))) !! 0%nat
     = Some (Vec3 (fsub (fsub 10 (round64 0.01)) 10) 0 0) /\
   ~ fsub (fsub 10 (round64 0.01)) 10 == -0.01 /\
   ~ fsub (fsub 10 (round64 0.01)) 10 == round64 (-0.01)) /\
  (positions (orthogonalize_111 (Demo.one_atom (2 ^ 60) (fsub (2 ^ 60) 0.5))) !! 0%nat
     = Some (Vec3 0 0 0) /\
   ~ fsub (2 ^ 60) 0.5 == 0).
Proof.
  repeat split; try (vm_compute; reflexivity);
    intros H; vm_compute in H; discriminate.
Qed.

(** C3, amended.  [orthogonalize_111] sets the (1,0) entry of the lattice
    matrix to zero and keeps the diagonal; the coordinate [x] of an atom
    along axis [d], of diagonal length [L], is replaced by the double
    [x - L] (a difference within the range of the doubles) exactly when it
    is at or above the double [L - 0.05].  An atom
    at the double [L - 0.01] is moved, to the double difference of its
    coordinate and [L]; an atom at the double [L - 0.5] is left unchanged
    when that double lies below the double [L - 0.05]. *)
Theorem orthogonalize_111_wraps (s : Atoms) (i : nat) (p : vec3) (d : axis)
    (Hp : positions s !! i = Some p) :
  let s' := orthogonalize_111 s in
  let L := mget (cell s) d d in
  mget (cell s') A1 A0 = 0 /\
  mget (cell s') d d = L /\
  exists p', positions s' !! i = Some p' /\
    (Qabs (vget p d - L) <= max64 -> fsub L (round64 0.05) <= vget p d ->
       vget p' d = fsub (vget p d) L) /\
    (vget p d < fsub L (round64 0.05) -> vget p' d = vget p d) /\
    (vget p d == fsub L (round64 0.01) -> vget p' d = fsub (vget p d) L) /\
    (vget p d == fsub L 0.5 -> fsub L 0.5 < fsub L (round64 0.05) ->
       vget p' d = vget p d).
Proof.
  cbv zeta. rewrite orthogonalize_111_cell.
  split; [reflexivity|]. split; [apply mset_diag|].
  destruct (orthogonalize_111_coord s i p Hp) as (p' & Hp' & Hc).
  exists p'. split; [exact Hp'|]. rewrite Hc.
  change (round64 0.05) with tol.
  repeat split.
  - intros _ H. now apply wrap_coord_above.
  - intros H. now apply wrap_coord_below.
  - intros H. apply wrap_coord_above. rewrite H.
    apply fsub_mono_r, tol_001.
  - intros H Hlt. apply wrap_coord_below. now rewrite H.
Qed.

Lemma orthogonalize_111_wraps_witness :
  positions Demo.cell10 !! 0%nat
    = Some (Vec3 (round64 9.99) 9.5 (round64 9.96)) /\
  exists p', positions (orthogonalize_111 Demo.cell10) !! 0%nat = Some p' /\
             vget p' A0 = fsub (round64 9.99) 10 /\ vget p' A1 = 9.5.
Proof.
  split; [reflexivity|].
  destruct (orthogonalize_111_wraps Demo.cell10 0
              (Vec3 (round64 9.99) 9.5 (round64 9.96)) A0 eq_refl)
    as (_ & _ & p' & Hp' & Hnear & _).
  destruct (orthogonalize_111_wraps Demo.cell10 0
              (Vec3 (round64 9.99) 9.5 (round64 9.96)) A1 eq_refl)
    as (_ & _ & q' & Hq' & _ & Hfar & _).
  exists p'. split; [exact Hp'|]. split.
  - apply Hnear; vm_compute; discriminate.
  - rewrite Hp' in Hq'. injection Hq' as <-. apply Hfar. vm_compute. reflexivity.
Defined.

(** C7.  After one call the (1,0) entry of the lattice matrix is zero, and
    when the atoms of the result are already wrapped (every coordinate
    below the double the code compares it with) a second call changes
    neither the lattice matrix nor any position. *)
Theorem orthogonalize_111_idempotent (s : Atoms)
    (Hw : wrapped (orthogonalize_111 s)) :
  mget (cell (orthogonalize_111 s)) A1 A0 = 0 /\
  cell (orthogonalize_111 (orthogonalize_111 s)) = cell (orthogonalize_111 s) /\
  positions (orthogonalize_111 (orthogonalize_111 s)) =
    positions (orthogonalize_111 s) /\
  orthogonalize_111 (orthogonalize_111 s) = orthogonalize_111 s.
Proof.
  assert (Hc : cell (orthogonalize_111 (orthogonalize_111 s)) =
               cell (orthogonalize_111 s)).
  { now rewrite !orthogonalize_111_cell. }
  assert (Hps : positions (orthogonalize_111 (orthogonalize_111 s)) =
                positions (orthogonalize_111 s)).
  { rewrite (orthogonalize_111_eq (orthogonalize_111 s)). cbn [positions].
    apply list_eq. intros i. rewrite list_lookup_fmap.
    destruct (positions (orthogonalize_111 s) !! i) as [p|] eqn:Hp;
      [|reflexivity].
    change (Some (wrap_row (mset (cell (orthogonalize_111 s)) A1 A0 0) p) = Some p).
    rewrite (wrap_row_fixed _ p); [reflexivity|]. intros d.
    rewrite mset_diag. exact (Hw i p d Hp). }
  split; [now rewrite orthogonalize_111_cell|].
  split; [exact Hc|]. split; [exact Hps|].
  rewrite (orthogonalize_111_eq (orthogonalize_111 s)).
  rewrite <- orthogonalize_111_cell, Hc.
  rewrite <- wrap_positions_map.
  change (wrap_positions _ _) with
    (positions (orthogonalize_111 (orthogonalize_111 s))) at 1.
  rewrite Hps. now destruct (orthogonalize_111 s).
Qed.

Lemma cell10_wrapped : wrapped (orthogonalize_111 Demo.cell10).
Proof.
  intros i p d Hp.
  destruct i as [|[|i]]; vm_compute in Hp; [| |discriminate];
    injection Hp as <-; destruct d; vm_compute; reflexivity.
Defined.

Lemma orthogonalize_111_idempotent_witness :
  wrapped (orthogonalize_111 Demo.cell10) /\
  mget (cell (orthogonalize_111 Demo.cell10)) A1 A0 = 0 /\
  orthogonalize_111 (orthogonalize_111 Demo.cell10) =
    orthogonalize_111 Demo.cell10.
Proof.
  split; [exact cell10_wrapped|].
  destruct (orthogonalize_111_idempotent Demo.cell10 cell10_wrapped)
    as (H0 & _ & _ & Hid).
  split; [exact H0 | exact Hid].
Defined.

(** C8.  One call subtracts the diagonal length [L] of an axis from a
    coordinate at most once: the coordinate comes out as it was or as the
    double [x - L].  So, when [L > 0], a coordinate (a double) at or above
    [2L - 0.05] comes out at or above the double [L - 0.05] the code
    compares with, still outside the box. *)
Theorem orthogonalize_111_single_wrap (s : Atoms) (i : nat) (p : vec3)
    (d : axis) (Hp : positions s !! i = Some p) :
  let s' := orthogonalize_111 s in
  let L := mget (cell s) d d in
  exists p', positions s' !! i = Some p' /\
    (vget p' d = vget p d \/ vget p' d = fsub (vget p d) L) /\
    (0 < L -> double (vget p d) -> 2 * L - 0.05 <= vget p d ->
       vget p' d = fsub (vget p d) L /\
       fsub (mget (cell s') d d) (round64 0.05) <= vget p' d).
Proof.
  cbv zeta. rewrite orthogonalize_111_cell, mset_diag.
  destruct (orthogonalize_111_coord s i p Hp) as (p' & Hp' & Hc).
  exists p'. split; [exact Hp'|]. rewrite Hc. split.
  - unfold wrap_coord. destruct (geb _ _); [now right | now left].
  - intros HL [Hx _] Hfar. change (round64 0.05) with tol.
    pose proof tol_above as Htol.
    rewrite wrap_coord_above.
    + split; [reflexivity|]. apply round64_mono. lra.
    + rewrite <- Hx. apply round64_mono. lra.
Qed.

Lemma orthogonalize_111_single_wrap_witness :
  positions (Demo.one_atom 10 20) !! 0%nat = Some (Vec3 20 0 0) /\
  exists p',
    positions (orthogonalize_111 (Demo.one_atom 10 20)) !! 0%nat = Some p' /\
    vget p' A0 = fsub 20 10 /\ fsub 10 (round64 0.05) <= vget p' A0.
Proof.
  split; [reflexivity|].
  destruct (orthogonalize_111_single_wrap (Demo.one_atom 10 20) 0 (Vec3 20 0 0) A0
              eq_refl) as (p' & Hp' & _ & H).
  exists p'. split; [exact Hp'|].
  apply H.
  - reflexivity.
  - split; vm_compute; [reflexivity|discriminate].
  - vm_compute. discriminate.
Defined.

(** ** Fractional and Cartesian coordinates *)

Lemma veq_refl (v : vec3) : veq v v.
Proof. repeat split; reflexivity. Qed.

Lemma veq_sym (u v : vec3) : veq u v -> veq v u.
Proof. intros (H0 & H1 & H2). repeat split; now symmetry. Qed.

Lemma veq_trans (u v w : vec3) : veq u v -> veq v w -> veq u w.
Proof.
  intros (H0 & H1 & H2) (K0 & K1 & K2).
  repeat split; etransitivity; eassumption.
Qed.

Lemma cartesian_veq (m : mat3) (f g : vec3) :
  veq f g -> veq (cartesian m f) (cartesian m g).
Proof.
  intros (H0 & H1 & H2). unfold cartesian, veq. cbn [c0 c1 c2].
  rewrite H0, H1, H2. repeat split; reflexivity.
Qed.

(** Cramer's rule inverts the product with the cell. *)
Lemma fractional_cartesian (m : mat3) (f : vec3) :
  ~ det m == 0 -> veq (fractional m (cartesian m f)) f.
Proof.
  destruct m as [[a00 a01 a02] [a10 a11 a12] [a20 a21 a22]], f as [f0 f1 f2].
  unfold veq, fractional, cartesian, det, dot, cross. cbn [c0 c1 c2 r0 r1 r2].
  intros Hd. repeat split; field; exact Hd.
Qed.

Lemma cartesian_fractional (m : mat3) (p : vec3) :
  ~ det m == 0 -> veq (cartesian m (fractional m p)) p.
Proof.
  destruct m as [[a00 a01 a02] [a10 a11 a12] [a20 a21 a22]], p as [p0 p1 p2].
  unfold veq, fractional, cartesian, det, dot, cross. cbn [c0 c1 c2 r0 r1 r2].
  intros Hd. repeat split; field; exact Hd.
Qed.

Lemma Qfloor_unit (x : Q) : 0 <= x -> x < 1 -> Qfloor x = 0%Z.
Proof.
  intros H0 H1.
  pose proof (Qfloor_le x) as Hle. pose proof (Qlt_floor x) as Hlt.
  assert (Ha : inject_Z (Qfloor x) < inject_Z 1) by (eapply Qle_lt_trans; eauto).
  assert (Hb : inject_Z 0 < inject_Z (Qfloor x + 1)) by (eapply Qle_lt_trans; eauto).
  rewrite <- Zlt_Qlt in Ha, Hb. lia.
Qed.

Lemma mod1_unit (x : Q) : 0 <= x -> x < 1 -> mod1 x == x.
Proof.
  intros H0 H1. unfold mod1. rewrite (Qfloor_unit x H0 H1).
  unfold inject_Z. ring.
Qed.

Lemma wrap_axis_unit (periodic : bool) (x : Q) :
  in_unit periodic x -> wrap_axis periodic x == x.
Proof.
  intros H. destruct periodic; [|reflexivity]. cbn.
  destruct (H eq_refl) as [H0 H1].
  pose proof (mod1_unit x H0 H1) as Hx.
  rewrite (mod1_unit (mod1 x)); [exact Hx| |]; rewrite Hx; assumption.
Qed.

Lemma in_unit_eq (periodic : bool) (x y : Q) :
  x == y -> in_unit periodic y -> in_unit periodic x.
Proof. intros E H Hp. rewrite E. now apply H. Qed.

Lemma wrap_pbc_unit (flags : bool * bool * bool) (f g : vec3) :
  veq f g -> in_cell flags g -> veq (wrap_pbc flags f) g.
Proof.
  destruct flags as [[p0 p1] p2]. intros (E0 & E1 & E2) (H0 & H1 & H2).
  unfold wrap_pbc, veq. cbn [c0 c1 c2].
  repeat split.
  - rewrite (wrap_axis_unit p0 (c0 f)); [exact E0 | now apply (in_unit_eq _ _ _ E0)].
  - rewrite (wrap_axis_unit p1 (c1 f)); [exact E1 | now apply (in_unit_eq _ _ _ E1)].
  - rewrite (wrap_axis_unit p2 (c2 f)); [exact E2 | now apply (in_unit_eq _ _ _ E2)].
Qed.

Lemma fractional_veq (m : mat3) (p q : vec3) :
  veq p q -> veq (fractional m p) (fractional m q).
Proof.
  intros (H0 & H1 & H2). unfold veq, fractional, dot. cbn [c0 c1 c2].
  rewrite H0, H1, H2. repeat split; reflexivity.
Qed.

Lemma in_cell_veq (flags : bool * bool * bool) (f g : vec3) :
  veq f g -> in_cell flags g -> in_cell flags f.
Proof.
  destruct flags as [[p0 p1] p2]. intros (E0 & E1 & E2) (H0 & H1 & H2).
  repeat split; eapply in_unit_eq; eassumption.
Qed.

(** An atom placed at the fractional coordinate [f] is read back there. *)
Lemma in_cell_fractional (m : mat3) (flags : bool * bool * bool) (p f : vec3) :
  ~ det m == 0 -> veq p (cartesian m f) -> in_cell flags f ->
  in_cell flags (fractional m p).
Proof.
  intros Hd Hp Hf. apply (in_cell_veq _ _ f); [|exact Hf].
  eapply veq_trans; [apply fractional_veq, Hp | now apply fractional_cartesian].
Qed.

(** Reading back the scaled positions of atoms that were placed by their
    fractional coordinates. *)
Lemma scaled_of_cartesian (m : mat3) (flags : bool * bool * bool)
    (fs gs : list vec3) :
  ~ det m == 0 ->
  Forall2 (fun f g => veq f g /\ in_cell flags g) fs gs ->
  Forall2 veq
    (map (fun p => wrap_pbc flags (fractional m p)) (map (cartesian m) fs)) gs.
Proof.
  intros Hd H. induction H as [|f g fs gs [Hfg Hg] _ IH]; cbn [map].
  - constructor.
  - constructor; [|exact IH].
    apply wrap_pbc_unit; [|exact Hg].
    eapply veq_trans; [now apply fractional_cartesian | exact Hfg].
Qed.

Lemma det_diag_cell (a b c : Q) : det (diag_cell a b c) == a * b * c.
Proof. unfold det, dot, cross, diag_cell. cbn [c0 c1 c2 r0 r1 r2]. ring. Qed.

Lemma det_cube (a : Q) : 0 < a -> ~ det (diag_cell a a a) == 0.
Proof.
  intros Ha. rewrite det_diag_cell. intros H.
  assert (H3 : 0 < a * a * a) by (repeat apply Qmult_lt_0_compat; exact Ha).
  rewrite H in H3. exact (Qlt_irrefl 0 H3).
Qed.

(** A cell without a nonzero lattice vector has determinant zero, so the
    completion keeps every invertible cell. *)
Lemma rank_none_det (m : mat3) : rank m = 0%nat -> det m == 0.
Proof.
  destruct m as [[a b c] v1 v2]. unfold rank, nonzero.
  cbn [r0 r1 r2 c0 c1 c2 List.filter].
  destruct (Qeq_bool a 0 && Qeq_bool b 0 && Qeq_bool c 0)%bool eqn:E.
  - intros _. apply andb_prop in E as [E Ec]. apply andb_prop in E as [Ea Eb].
    apply Qeq_bool_iff in Ea, Eb, Ec.
    unfold det, dot, cross. cbn [r0 r1 r2 c0 c1 c2].
    rewrite Ea, Eb, Ec. ring.
  - cbn [negb]. destruct (negb _), (negb _); discriminate.
Qed.

Lemma complete_invertible (m : mat3) : ~ det m == 0 -> complete m = m.
Proof.
  intros Hd. unfold complete.
  destruct (rank m =? 0)%nat eqn:E; [|reflexivity].
  apply Nat.eqb_eq in E. now apply rank_none_det in E.
Qed.

Lemma complete_zero (m : mat3) :
  rank m = 0%nat -> complete m = diag_cell 1 1 1.
Proof. intros H. unfold complete. now rewrite H. Qed.

Lemma get_scaled_positions_ok (s : Atoms) :
  ~ det (cell s) == 0 ->
  get_scaled_positions s =
  ([], Ok (map (fun p => wrap_pbc (pbc s) (fractional (cell s) p))
               (positions s))).
Proof.
  intros Hd. unfold get_scaled_positions. cbv zeta.
  rewrite (complete_invertible _ Hd).
  destruct (Qeq_bool (det (cell s)) 0) eqn:E; [|reflexivity].
  apply Qeq_bool_iff in E. contradiction.
Qed.

Lemma set_scaled_positions_eq (s : Atoms) (scaled : list vec3) :
  ~ det (cell s) == 0 ->
  set_scaled_positions s scaled =
  set_positions s (map (cartesian (cell s)) scaled).
Proof.
  intros Hd. unfold set_scaled_positions. now rewrite (complete_invertible _ Hd).
Qed.

(** ** C2: [ceria_crystallographic] *)

Lemma rank_cube (a : Q) : ~ a == 0 -> rank (diag_cell a a a) = 3%nat.
Proof.
  intros Ha. unfold rank, diag_cell, nonzero.
  cbn [r0 r1 r2 c0 c1 c2 List.filter].
  destruct (Qeq_bool a 0) eqn:E; [|reflexivity].
  apply Qeq_bool_iff in E. contradiction.
Qed.

Lemma rank_zero (a : Q) : a == 0 -> rank (diag_cell a a a) = 0%nat.
Proof.
  intros Ha. unfold rank, diag_cell, nonzero.
  cbn [r0 r1 r2 c0 c1 c2 List.filter].
  apply Qeq_bool_iff in Ha. now rewrite Ha.
Qed.

(** The structure [ceria_crystallographic] returns, when it returns. *)
Lemma crystallographic_positions (cellparam : Q) (ceria : Atoms) :
  outcome (ceria_crystallographic cellparam) = Ok ceria ->
  positions ceria =
  map (cartesian (diag_cell cellparam cellparam cellparam))
    [ Vec3 0 0 0; Vec3 0.5 0.5 0; Vec3 0.5 0 0.5; Vec3 0 0.5 0.5;
      Vec3 0.25 0.25 0.25; Vec3 0.25 0.25 0.75; Vec3 0.25 0.75 0.25;
      Vec3 0.75 0.25 0.25; Vec3 0.25 0.75 0.75; Vec3 0.75 0.25 0.75;
      Vec3 0.75 0.75 0.25; Vec3 0.75 0.75 0.75 ].
Proof.
  unfold ceria_crystallographic, Atoms_scaled, outcome.
  destruct (_ =? _)%nat; cbn [snd ret raise]; [|discriminate].
  intros H. now injection H as <-.
Qed.

Lemma crystallographic_ok (cellparam : Q) :
  ~ cellparam == 0 ->
  exists ceria, ceria_crystallographic cellparam = ([], Ok ceria).
Proof.
  intros Ha. unfold ceria_crystallographic, Atoms_scaled.
  rewrite (rank_cube _ Ha). cbn [Nat.eqb]. eexists. reflexivity.
Qed.

Lemma crystallographic_log (cellparam : Q) :
  log (ceria_crystallographic cellparam) = [].
Proof.
  unfold ceria_crystallographic, Atoms_scaled, log.
  destruct (_ =? _)%nat; reflexivity.
Qed.

Lemma det_nonzero (a : Q) : ~ a == 0 -> ~ det (diag_cell a a a) == 0.
Proof.
  intros Ha. rewrite det_diag_cell. intros H.
  apply Qmult_integral in H as [H|H]; [|contradiction].
  apply Qmult_integral in H as [H|H]; contradiction.
Qed.

(** C2.  For a positive lattice parameter, [ceria_crystallographic] gives
    12 atoms, 4 cerium at (0,0,0), (1/2,1/2,0), (1/2,0,1/2), (0,1/2,1/2)
    and 8 oxygen at (1/4,1/4,1/4) and its images, in a cubic cell whose
    diagonal entries are the lattice parameter and whose other entries are
    zero, periodic along all three axes. *)
Theorem ceria_crystallographic_cell (cellparam : Q) (Hpos : 0 < cellparam) :
  exists ceria,
  ceria_crystallographic cellparam = ([], Ok ceria) /\
  natoms ceria = 12%nat /\
  symbols ceria =
    ["Ce"; "Ce"; "Ce"; "Ce"; "O"; "O"; "O"; "O"; "O"; "O"; "O"; "O"]%string /\
  (exists scaled, get_scaled_positions ceria = ([], Ok scaled) /\
     Forall2 veq scaled
       [ Vec3 0 0 0; Vec3 (1#2) (1#2) 0; Vec3 (1#2) 0 (1#2); Vec3 0 (1#2) (1#2);
         Vec3 (1#4) (1#4) (1#4); Vec3 (1#4) (1#4) (3#4);
         Vec3 (1#4) (3#4) (1#4); Vec3 (3#4) (1#4) (1#4);
         Vec3 (1#4) (3#4) (3#4); Vec3 (3#4) (1#4) (3#4);
         Vec3 (3#4) (3#4) (1#4); Vec3 (3#4) (3#4) (3#4) ]) /\
  cell ceria = Mat3 (Vec3 cellparam 0 0) (Vec3 0 cellparam 0) (Vec3 0 0 cellparam) /\
  (forall i j, mget (cell ceria) i j =
               match i, j with
               | A0, A0 | A1, A1 | A2, A2 => cellparam
               | _, _ => 0
               end) /\
  pbc ceria = (true, true, true).
Proof.
  assert (Ha : ~ cellparam == 0) by lra.
  unfold ceria_crystallographic, Atoms_scaled.
  rewrite (rank_cube _ Ha). cbn [Nat.eqb]. eexists.
  split; [reflexivity|].
  split; [reflexivity|]. split; [reflexivity|]. split.
  - eexists. split.
    + apply get_scaled_positions_ok. cbn [cell]. now apply det_cube.
    + cbn [cell positions pbc]. apply scaled_of_cartesian; [now apply det_cube|].
      repeat constructor; try reflexivity; try discriminate.
  - split; [reflexivity|]. split; [|reflexivity].
    intros [] []; reflexivity.
Qed.

Lemma ceria_crystallographic_cell_witness :
  0 < 5 /\
  exists ceria,
    ceria_crystallographic 5 = ([], Ok ceria) /\
    natoms ceria = 12%nat /\
    cell ceria = Mat3 (Vec3 5 0 0) (Vec3 0 5 0) (Vec3 0 0 5).
Proof.
  split; [reflexivity|].
  destruct (ceria_crystallographic_cell 5 eq_refl)
    as (ceria & Hrun & Hn & _ & _ & Hc & _).
  exists ceria. split; [exact Hrun|]. split; [exact Hn | exact Hc].
Defined.

(** ** C1: [ceria_primitive] *)

Lemma bind_ok {A B} (l : list call) (a : A) (f : A -> M B) :
  bind (l, Ok a) f = (l ++ fst (f a), snd (f a)).
Proof. reflexivity. Qed.

Lemma bind_raise {A B} (l : list call) (e : exn) (f : A -> M B) :
  bind (l, Raise e) f = (l, Raise e).
Proof. reflexivity. Qed.

Lemma external_ok (c : call) (a : Atoms) : external c (inr a) = ([c], Ok a).
Proof. reflexivity. Qed.

(** The structure [ceria_primitive] returns when the constructor returns
    [b] with an invertible cell and at least one atom. *)
Lemma ceria_primitive_eq (tk : Toolkit) (cellparam : Q) (b : Atoms) :
  tk_bulk tk "CeO2" "fluorite" cellparam = inr b ->
  ~ det (cell b) == 0 ->
  (0 < natoms b)%nat ->
  ceria_primitive tk cellparam =
  ([Bulk "CeO2" "fluorite" cellparam],
   Ok (set_scaled_positions b
         (<[0%nat := Vec3 0.5 0.5 0.5]>
            (map (fun p => wrap_pbc (pbc b) (fractional (cell b) p))
                 (positions b))))).
Proof.
  intros Hb Hd Hn. unfold ceria_primitive, bulk. rewrite Hb, external_ok.
  cbn [bind fst snd]. rewrite (get_scaled_positions_ok b Hd).
  cbn [bind fst snd]. unfold setitem. rewrite length_map.
  destruct (0 <? length (positions b))%nat eqn:E.
  - reflexivity.
  - apply Nat.ltb_ge in E. unfold natoms in Hn. lia.
Qed.

(** Whenever [ceria_primitive] returns, it returns the constructor's
    structure with the positions replaced: same number of atoms, same
    symbols, same cell. *)
Lemma ceria_primitive_count (tk : Toolkit) (cellparam : Q) (b ceria : Atoms) :
  tk_bulk tk "CeO2" "fluorite" cellparam = inr b ->
  outcome (ceria_primitive tk cellparam) = Ok ceria ->
  natoms ceria = natoms b /\ symbols ceria = symbols b /\ cell ceria = cell b.
Proof.
  intros Hb. unfold ceria_primitive, bulk, outcome. rewrite Hb, external_ok.
  cbn [bind fst snd]. unfold get_scaled_positions.
  destruct (Qeq_bool _ _); cbn [bind fst snd ret raise]; [discriminate|].
  unfold setitem. destruct (_ <? _)%nat; cbn [bind fst snd ret raise];
    [|discriminate].
  intros H. injection H as <-.
  unfold set_scaled_positions, set_positions, natoms. cbn [positions symbols cell].
  now rewrite length_map, length_insert, length_map.
Qed.

(** The run of [ceria_primitive] on a well-formed structure. *)
Lemma ceria_primitive_run (tk : Toolkit) (cellparam : Q) (b : Atoms) :
  tk_bulk tk "CeO2" "fluorite" cellparam = inr b ->
  well_formed b -> (0 < natoms b)%nat ->
  exists ceria,
    ceria_primitive tk cellparam =
      ([Bulk "CeO2" "fluorite" cellparam], Ok ceria) /\
    natoms ceria = natoms b /\
    cell ceria = cell b /\ symbols ceria = symbols b /\ pbc ceria = pbc b /\
    (exists scaled f0,
        get_scaled_positions ceria = ([], Ok scaled) /\
        scaled !! 0%nat = Some f0 /\ veq f0 (Vec3 (1#2) (1#2) (1#2))) /\
    (forall i p, i <> 0%nat -> positions b !! i = Some p ->
        exists p', positions ceria !! i = Some p' /\ veq p' p).
Proof.
  intros Hb [Hd Hin] Hn.
  eexists. split.
  { apply ceria_primitive_eq; [exact Hb | exact Hd | exact Hn]. }
  rewrite (set_scaled_positions_eq b _ Hd).
  unfold set_positions. cbn [cell symbols pbc positions].
  split.
  { unfold natoms. cbn [positions].
    now rewrite length_map, length_insert, length_map. }
  do 3 (split; [reflexivity|]). split.
  - eexists. exists (wrap_pbc (pbc b)
                       (fractional (cell b) (cartesian (cell b) (Vec3 0.5 0.5 0.5)))).
    split; [apply get_scaled_positions_ok; exact Hd|].
    cbn [cell positions pbc]. split.
    + rewrite !list_lookup_fmap, list_lookup_insert_eq; [reflexivity|].
      rewrite length_map. exact Hn.
    + apply wrap_pbc_unit.
      * eapply veq_trans; [now apply fractional_cartesian|].
        repeat split; reflexivity.
      * destruct (pbc b) as [[p0 p1] p2].
        unfold in_cell, in_unit. cbn [c0 c1 c2]. intuition lra.
  - intros i p Hi Hp.
    exists (cartesian (cell b) (wrap_pbc (pbc b) (fractional (cell b) p))).
    split.
    + rewrite list_lookup_fmap, list_lookup_insert_ne by auto.
      now rewrite list_lookup_fmap, Hp.
    + eapply veq_trans; [|exact (cartesian_fractional (cell b) p Hd)].
      apply cartesian_veq, wrap_pbc_unit; [apply veq_refl|].
      exact (Hin i p Hp).
Qed.

(** The fluorite cell of the library: three atoms, well formed. *)
Lemma ase_bulk_fluorite (a : Q) :
  0 < a ->
  exists b, Ase.bulk "CeO2" "fluorite" a = inr b /\
            natoms b = 3%nat /\ symbols b = ["Ce"; "O"; "O"]%string /\
            well_formed b.
Proof.
  intros Ha. unfold Ase.bulk.
  change (String.eqb "CeO2" "CeO2" && String.eqb "fluorite" "fluorite")%bool
    with true. cbv iota.
  eexists. split; [reflexivity|]. split; [reflexivity|]. split; [reflexivity|].
  assert (Hdet : det (Mat3 (Vec3 0 (a / 2) (a / 2)) (Vec3 (a / 2) 0 (a / 2))
                           (Vec3 (a / 2) (a / 2) 0)) == a * a * a / 4).
  { unfold det, dot, cross. cbn [c0 c1 c2 r0 r1 r2]. field. }
  assert (Hd : ~ det (Mat3 (Vec3 0 (a / 2) (a / 2)) (Vec3 (a / 2) 0 (a / 2))
                           (Vec3 (a / 2) (a / 2) 0)) == 0).
  { rewrite Hdet. intros H.
    assert (H3 : 0 < a * a * a / 4).
    { apply Qlt_shift_div_l; [reflexivity|]. rewrite Qmult_0_l.
      repeat apply Qmult_lt_0_compat; exact Ha. }
    rewrite H in H3. exact (Qlt_irrefl 0 H3). }
  split; [exact Hd|]. cbn [positions cell pbc].
  intros i p Hp.
  destruct i as [|[|[|i]]]; cbn in Hp; [| | |discriminate]; injection Hp as <-.
  - apply (in_cell_fractional _ _ _ (Vec3 0 0 0) Hd).
    + unfold veq, cartesian. cbn [c0 c1 c2 r0 r1 r2]. repeat split; field.
    + unfold in_cell, in_unit. cbn [c0 c1 c2]. intuition lra.
  - apply (in_cell_fractional _ _ _ (Vec3 (1#4) (1#4) (1#4)) Hd).
    + unfold veq, cartesian. cbn [c0 c1 c2 r0 r1 r2]. repeat split; field.
    + unfold in_cell, in_unit. cbn [c0 c1 c2]. intuition lra.
  - apply (in_cell_fractional _ _ _ (Vec3 (3#4) (3#4) (3#4)) Hd).
    + unfold veq, cartesian. cbn [c0 c1 c2 r0 r1 r2]. repeat split; field.
    + unfold in_cell, in_unit. cbn [c0 c1 c2]. intuition lra.
Qed.

(** C1, as the specification states it, fails on the code: the fluorite
    cell the library builds for CeO2 has three atoms (Ce, O, O), and
    [ceria_primitive] keeps them all. *)
Lemma ceria_primitive_cell_counterexample :
  exists ceria,
    outcome (ceria_primitive Ase.toolkit 5) = Ok ceria /\
    symbols ceria = ["Ce"; "O"; "O"]%string /\
    natoms ceria = 3%nat /\ natoms ceria <> 2%nat.
Proof.
  eexists. split; [vm_compute; reflexivity|].
  split; [reflexivity|]. split; [reflexivity|]. discriminate.
Qed.

(** C1, amended.  [ceria_primitive] returns a structure with exactly as
    many atoms as the bulk constructor produced, three (Ce, O, O) for the
    library's fluorite cell of CeO2 at a positive lattice parameter, in
    the constructor's lattice.  When the constructor's structure is well
    formed, the atom at index 0 has the fractional coordinate
    (1/2, 1/2, 1/2) and every other atom is where the constructor put
    it. *)
Theorem ceria_primitive_cell (cellparam : Q) (Hpos : 0 < cellparam) :
  (forall tk b,
     tk_bulk tk "CeO2" "fluorite" cellparam = inr b ->
     well_formed b -> (0 < natoms b)%nat ->
     exists ceria,
       ceria_primitive tk cellparam =
         ([Bulk "CeO2" "fluorite" cellparam], Ok ceria) /\
       natoms ceria = natoms b /\
       cell ceria = cell b /\ symbols ceria = symbols b /\
       pbc ceria = pbc b /\
       (exists scaled f0,
           get_scaled_positions ceria = ([], Ok scaled) /\
           scaled !! 0%nat = Some f0 /\ veq f0 (Vec3 (1#2) (1#2) (1#2))) /\
       (forall i p, i <> 0%nat -> positions b !! i = Some p ->
           exists p', positions ceria !! i = Some p' /\ veq p' p)) /\
  (exists b ceria,
     Ase.bulk "CeO2" "fluorite" cellparam = inr b /\ well_formed b /\
     ceria_primitive Ase.toolkit cellparam =
       ([Bulk "CeO2" "fluorite" cellparam], Ok ceria) /\
     natoms ceria = 3%nat /\ symbols ceria = ["Ce"; "O"; "O"]%string).
Proof.
  split.
  - intros tk b Hb Hwf Hn. exact (ceria_primitive_run tk cellparam b Hb Hwf Hn).
  - destruct (ase_bulk_fluorite cellparam Hpos) as (b & Hb & Hn & Hs & Hwf).
    destruct (ceria_primitive_run Ase.toolkit cellparam b Hb Hwf)
      as (ceria & Hrun & Hc & _ & Hsy & _); [lia|].
    exists b, ceria. repeat split; try assumption; try apply Hwf; congruence.
Qed.

Lemma ceria_primitive_cell_witness :
  0 < 5 /\
  exists ceria,
    ceria_primitive Ase.toolkit 5 = ([Bulk "CeO2" "fluorite" 5], Ok ceria) /\
    natoms ceria = 3%nat.
Proof.
  split; [reflexivity|].
  destruct (proj2 (ceria_primitive_cell 5 eq_refl))
    as (b & ceria & _ & _ & Hrun & Hn & _).
  exists ceria. split; [exact Hrun | exact Hn].
Defined.

(** ** The pipeline of [slab] *)

Lemma is_111_true (indices : Z * Z * Z) :
  is_111 indices = true <-> indices = (1, 1, 1)%Z.
Proof.
  destruct indices as [[h k] l]. unfold is_111. split.
  - intros H. apply andb_prop in H as [H Hl]. apply andb_prop in H as [Hh Hk].
    apply Z.eqb_eq in Hh, Hk, Hl. now subst.
  - intros H. now injection H as -> -> ->.
Qed.

Lemma is_111_false (indices : Z * Z * Z) :
  is_111 indices = false <-> indices <> (1, 1, 1)%Z.
Proof.
  rewrite <- is_111_true. destruct (is_111 indices); split; congruence.
Qed.

Lemma ceria_primitive_log (tk : Toolkit) (cellparam : Q) :
  log (ceria_primitive tk cellparam) = [Bulk "CeO2" "fluorite" cellparam].
Proof.
  unfold ceria_primitive, bulk, external, log.
  destruct (tk_bulk tk _ _ _) as [msg|b]; [reflexivity|].
  cbn [bind fst snd]. unfold get_scaled_positions.
  destruct (Qeq_bool _ _); [reflexivity|].
  cbn [bind fst snd ret]. unfold setitem.
  destruct (_ <? _)%nat; reflexivity.
Qed.

Lemma bulk_cell_log (tk : Toolkit) (indices : Z * Z * Z) (cellparam : Q) :
  log (bulk_cell tk indices cellparam) =
  if is_111 indices then [Bulk "CeO2" "fluorite" cellparam] else [].
Proof.
  unfold bulk_cell.
  destruct (is_111 indices); [apply ceria_primitive_log|apply crystallographic_log].
Qed.

Lemma slab_eq (tk : Toolkit) (cellparam vacuum : Q) (layers : Z)
    (repetitions indices : Z * Z * Z) (waterspecies : string) :
  slab tk cellparam vacuum layers repetitions indices waterspecies =
  (ceria <- bulk_cell tk indices cellparam ;;
   s <- surface tk ceria indices layers vacuum ;;
   s <- repeat tk s repetitions ;;
   s <- (if String.eqb waterspecies "a" then add_water tk s else ret s) ;;
   sort tk s).
Proof. reflexivity. Qed.

Lemma eqb_a_false (w : string) : w <> "a"%string -> String.eqb w "a" = false.
Proof. intros H. now apply String.eqb_neq. Qed.

(** The third atom from the end. *)
Lemma getitem_third_last (s : Atoms) (p : vec3) :
  getitem s (-3) = ([], Ok p) <->
  (3 <= natoms s)%nat /\ positions s !! (natoms s - 3)%nat = Some p.
Proof.
  unfold getitem, natoms.
  destruct (_ || _)%bool eqn:E.
  - split; [discriminate|]. intros [H _].
    apply orb_prop in E as [E|E]; [apply Z.ltb_lt in E | apply Z.leb_le in E]; lia.
  - apply orb_false_elim in E as [E1 E2].
    apply Z.ltb_ge in E1. apply Z.leb_gt in E2.
    change (-3 <? 0)%Z with true. cbv iota.
    replace (Z.to_nat (Z.of_nat (length (positions s)) + -3))
      with (length (positions s) - 3)%nat by lia.
    destruct (positions s !! _) as [q|] eqn:Hq.
    + split.
      * intros H. injection H as ->. split; [lia|reflexivity].
      * intros [_ H]. now injection H as ->.
    + split; [discriminate|]. intros [_ H]. discriminate.
Qed.

Lemma getitem_out_of_range (s : Atoms) :
  (natoms s < 3)%nat -> getitem s (-3) = ([], Raise IndexError).
Proof.
  intros H. unfold getitem.
  destruct (_ || _)%bool eqn:E; [reflexivity|].
  apply orb_false_elim in E as [E1 E2]. apply Z.ltb_ge in E1. lia.
Qed.

Lemma getitem_in_range (s : Atoms) :
  (3 <= natoms s)%nat -> exists p, getitem s (-3) = ([], Ok p).
Proof.
  intros H. destruct (lookup_lt_is_Some_2 (positions s) (natoms s - 3)) as [p Hp].
  { unfold natoms in *. lia. }
  exists p. now apply getitem_third_last.
Qed.

(** The calls behind a successful run of the adsorption branch. *)
Lemma add_water_ok (tk : Toolkit) (s : Atoms) (l : list call) (r : Atoms) :
  add_water tk s = (l, Ok r) ->
  exists w0 w1 w2 w3 anchor,
    tk_molecule tk "H2O" = inr w0 /\
    tk_rotate tk w0 80 "z" = inr w1 /\
    tk_rotate tk w1 (-60) "x" = inr w2 /\
    tk_rotate tk w2 50 "y" = inr w3 /\
    (3 <= natoms s)%nat /\
    positions s !! (natoms s - 3)%nat = Some anchor /\
    tk_add_adsorbate tk s w3 2 (c0 anchor + 0.6, c1 anchor - 0.3) = inr r /\
    l = [Molecule "H2O"; Rotate w0 80 "z"; Rotate w1 (-60) "x";
         Rotate w2 50 "y";
         AddAdsorbate s w3 2 (c0 anchor + 0.6, c1 anchor - 0.3)].
Proof.
  unfold add_water, molecule, rotate, add_adsorbate, external.
  destruct (tk_molecule tk "H2O") as [?|w0] eqn:H0; cbn [bind fst snd];
    [discriminate|].
  destruct (tk_rotate tk w0 80 "z") as [?|w1] eqn:H1; cbn [bind fst snd];
    [discriminate|].
  destruct (tk_rotate tk w1 (-60) "x") as [?|w2] eqn:H2; cbn [bind fst snd];
    [discriminate|].
  destruct (tk_rotate tk w2 50 "y") as [?|w3] eqn:H3; cbn [bind fst snd];
    [discriminate|].
  destruct (le_lt_dec 3 (natoms s)) as [Hn|Hn].
  - destruct (getitem_in_range s Hn) as [p Hp]. rewrite Hp.
    apply getitem_third_last in Hp as [_ Hp].
    cbn [bind fst snd]. unfold atom_x, atom_y.
    destruct (tk_add_adsorbate tk s w3 2 _) as [?|s'] eqn:H4; cbn [app];
      [discriminate|].
    intros H. injection H as <- <-.
    exists w0, w1, w2, w3, p. repeat split; assumption.
  - rewrite (getitem_out_of_range s Hn). cbn [bind fst snd]. discriminate.
Qed.

(** The calls behind a successful run of [slab] with water. *)
Lemma slab_water_ok (tk : Toolkit) (cellparam vacuum : Q) (layers : Z)
    (repetitions indices : Z * Z * Z) (l : list call) (r : Atoms) :
  slab tk cellparam vacuum layers repetitions indices "a" = (l, Ok r) ->
  exists ceria s0 s lw s',
    outcome (bulk_cell tk indices cellparam) = Ok ceria /\
    tk_surface tk ceria indices layers vacuum = inr s0 /\
    tk_repeat tk s0 repetitions = inr s /\
    add_water tk s = (lw, Ok s') /\
    tk_sort tk s' = inr r /\
    l = log (bulk_cell tk indices cellparam) ++
        [Surface ceria indices layers vacuum; Repeat s0 repetitions] ++
        lw ++ [Sort s'].
Proof.
  rewrite slab_eq. unfold log, outcome.
  destruct (bulk_cell tk indices cellparam) as [l0 [ceria|e]];
    cbn [bind fst snd]; [|discriminate].
  unfold surface, repeat, sort, external.
  destruct (tk_surface tk ceria indices layers vacuum) as [?|s0] eqn:H0;
    cbn [bind fst snd]; [discriminate|].
  destruct (tk_repeat tk s0 repetitions) as [?|s] eqn:H1;
    cbn [bind fst snd]; [discriminate|].
  change (String.eqb "a" "a") with true. cbv iota.
  destruct (add_water tk s) as [lw [s'|e]] eqn:H2;
    cbn [bind fst snd]; [|discriminate].
  destruct (tk_sort tk s') as [?|r'] eqn:H3; [discriminate|].
  intros H. injection H as <- <-.
  exists ceria, s0, s, lw, s'. repeat split; try assumption.
Qed.

(** The calls behind a successful run of [slab] without water. *)
Lemma slab_dry_ok (tk : Toolkit) (cellparam vacuum : Q) (layers : Z)
    (repetitions indices : Z * Z * Z) (w : string) (l : list call) (r : Atoms) :
  w <> "a"%string ->
  slab tk cellparam vacuum layers repetitions indices w = (l, Ok r) ->
  exists ceria s0 s,
    outcome (bulk_cell tk indices cellparam) = Ok ceria /\
    tk_surface tk ceria indices layers vacuum = inr s0 /\
    tk_repeat tk s0 repetitions = inr s /\
    tk_sort tk s = inr r /\
    l = log (bulk_cell tk indices cellparam) ++
        [Surface ceria indices layers vacuum; Repeat s0 repetitions; Sort s].
Proof.
  intros Hw. rewrite slab_eq, (eqb_a_false w Hw). unfold log, outcome.
  destruct (bulk_cell tk indices cellparam) as [l0 [ceria|e]];
    cbn [bind fst snd]; [|discriminate].
  unfold surface, repeat, sort, external.
  destruct (tk_surface tk ceria indices layers vacuum) as [?|s0] eqn:H0;
    cbn [bind fst snd]; [discriminate|].
  destruct (tk_repeat tk s0 repetitions) as [?|s] eqn:H1;
    cbn [bind fst snd ret]; [discriminate|].
  destruct (tk_sort tk s) as [?|r'] eqn:H3; [discriminate|].
  intros H. injection H as <- <-.
  exists ceria, s0, s. repeat split; try assumption.
Qed.

Lemma getitem_log (s : Atoms) (i : Z) : log (getitem s i) = [].
Proof.
  unfold getitem, log. destruct (_ || _)%bool; [reflexivity|].
  destruct (positions s !! _); reflexivity.
Qed.

(** Case analysis on the outcome of the next collaborator call. *)
Ltac next_call :=
  match goal with
  | |- context [match ?r with inl _ => _ | inr _ => _ end] =>
      destruct r; cbn [bind fst snd ret raise app log outcome]
  end.

Lemma add_water_no_surface (tk : Toolkit) (s : Atoms) :
  forallb (fun c => negb (is_surface_call c)) (log (add_water tk s)) = true.
Proof.
  unfold add_water, molecule, rotate, add_adsorbate, external.
  pose proof (getitem_log s (-3)) as Hg. unfold log in *.
  destruct (getitem s (-3)) as [lg [p|e]]; cbn [fst] in Hg; subst lg;
    cbn [bind fst snd ret raise app log outcome];
    repeat next_call; reflexivity.
Qed.

(** What [slab] does after the surface cutter returned [s0]. *)
Lemma after_surface_no_surface (tk : Toolkit) (s0 : Atoms)
    (repetitions : Z * Z * Z) (waterspecies : string) :
  forallb (fun c => negb (is_surface_call c))
    (log (s <- repeat tk s0 repetitions ;;
          s <- (if String.eqb waterspecies "a" then add_water tk s
                else ret s) ;;
          sort tk s)) = true.
Proof.
  unfold repeat, sort, external, log.
  destruct (tk_repeat tk s0 repetitions) as [?|s]; [reflexivity|].
  cbn [bind fst snd app forallb is_surface_call negb andb].
  destruct (String.eqb waterspecies "a").
  - pose proof (add_water_no_surface tk s) as Hw. unfold log in Hw.
    destruct (add_water tk s) as [lw [s'|e]]; cbn [bind fst snd] in *.
    + rewrite forallb_app, Hw. reflexivity.
    + exact Hw.
  - reflexivity.
Qed.

Lemma log_surface_bind (tk : Toolkit) (ceria : Atoms) (indices : Z * Z * Z)
    (layers : Z) (vacuum : Q) (k : Atoms -> M Atoms) :
  log (s <- surface tk ceria indices layers vacuum ;; k s) =
  Surface ceria indices layers vacuum ::
    match tk_surface tk ceria indices layers vacuum with
    | inl _ => []
    | inr s0 => log (k s0)
    end.
Proof.
  unfold surface, external, log.
  destruct (tk_surface tk ceria indices layers vacuum); reflexivity.
Qed.

Lemma surface_called_once (tk : Toolkit) (ceria : Atoms) (indices : Z * Z * Z)
    (layers : Z) (vacuum : Q) (repetitions : Z * Z * Z) (waterspecies : string) :
  exists rest,
    log (s <- surface tk ceria indices layers vacuum ;;
         s <- repeat tk s repetitions ;;
         s <- (if String.eqb waterspecies "a" then add_water tk s
               else ret s) ;;
         sort tk s) = Surface ceria indices layers vacuum :: rest /\
    forallb (fun c => negb (is_surface_call c)) rest = true.
Proof.
  eexists. split; [apply log_surface_bind|].
  destruct (tk_surface tk ceria indices layers vacuum) as [?|s0];
    [reflexivity|]. apply after_surface_no_surface.
Qed.

(** ** C4: the bulk cell handed to the surface cutter *)

(** C4, as the specification states it, fails on the code: with the
    library's fluorite cell the structure handed to the surface cutter
    for the indices (1,1,1) has three atoms. *)
Lemma slab_bulk_choice_counterexample :
  exists ceria rest,
    log (slab Ase.toolkit 5 8 3 (1, 1, 1)%Z (1, 1, 1)%Z "a") =
      Bulk "CeO2" "fluorite" 5 :: Surface ceria (1, 1, 1)%Z 3 8 :: rest /\
    natoms ceria = 3%nat /\ natoms ceria <> 2%nat.
Proof.
  eexists. eexists. split; [vm_compute; reflexivity|].
  split; [reflexivity|discriminate].
Qed.

(** C4, amended.  With [indices] equal to (1,1,1) the structure [slab]
    passes to the surface cutter is the one [ceria_primitive] built, which
    has as many atoms as the bulk constructor returned; with any other
    [indices] it is the 12-atom cell of [ceria_crystallographic], for a
    lattice parameter other than zero (at zero the constructor's assertion
    fails and no call is made).  The cutter is called once. *)
Theorem slab_bulk_choice (tk : Toolkit) (cellparam vacuum : Q) (layers : Z)
    (repetitions indices : Z * Z * Z) (waterspecies : string) :
  (indices = (1, 1, 1)%Z ->
     (forall ceria, outcome (ceria_primitive tk cellparam) = Ok ceria ->
        exists rest,
          log (slab tk cellparam vacuum layers repetitions indices waterspecies) =
            Bulk "CeO2" "fluorite" cellparam ::
            Surface ceria indices layers vacuum :: rest /\
          forallb (fun c => negb (is_surface_call c)) rest = true) /\
     (forall b ceria,
        tk_bulk tk "CeO2" "fluorite" cellparam = inr b ->
        outcome (ceria_primitive tk cellparam) = Ok ceria ->
        natoms ceria = natoms b)) /\
  (indices <> (1, 1, 1)%Z ->
     (~ cellparam == 0 ->
        exists ceria rest,
          ceria_crystallographic cellparam = ([], Ok ceria) /\
          natoms ceria = 12%nat /\
          log (slab tk cellparam vacuum layers repetitions indices waterspecies) =
            Surface ceria indices layers vacuum :: rest /\
          forallb (fun c => negb (is_surface_call c)) rest = true) /\
     (cellparam == 0 ->
        slab tk cellparam vacuum layers repetitions indices waterspecies =
          ([], Raise AssertionError))).
Proof.
  split.
  - intros Hi. apply is_111_true in Hi. split.
    + intros ceria Hc. rewrite slab_eq. unfold bulk_cell. rewrite Hi.
      pose proof (ceria_primitive_log tk cellparam) as Hl.
      destruct (surface_called_once tk ceria indices layers vacuum
                  repetitions waterspecies) as (rest & Hrest & Hnone).
      exists rest. split; [|exact Hnone].
      unfold log, outcome in *.
      destruct (ceria_primitive tk cellparam) as [l0 r0']. cbn [fst snd] in *.
      subst l0 r0'. cbn [bind fst snd app]. now rewrite Hrest.
    + intros b ceria Hb Hc.
      exact (proj1 (ceria_primitive_count tk cellparam b ceria Hb Hc)).
  - intros Hi. apply is_111_false in Hi. split.
    + intros Ha. destruct (crystallographic_ok cellparam Ha) as [ceria Hrun].
      destruct (surface_called_once tk ceria indices layers vacuum
                  repetitions waterspecies) as (rest & Hrest & Hnone).
      exists ceria, rest. split; [exact Hrun|]. split.
      { pose proof (crystallographic_positions cellparam ceria) as Hp.
        unfold outcome in Hp. rewrite Hrun in Hp.
        unfold natoms. now rewrite (Hp eq_refl). }
      split; [|exact Hnone].
      rewrite slab_eq. unfold bulk_cell. rewrite Hi, Hrun.
      unfold log in *. cbn [bind fst snd app]. exact Hrest.
    + intros Ha. rewrite slab_eq. unfold bulk_cell. rewrite Hi.
      unfold ceria_crystallographic, Atoms_scaled.
      now rewrite (rank_zero _ Ha).
Qed.

Lemma slab_bulk_choice_witness :
  (exists ceria rest,
     outcome (ceria_primitive Ase.toolkit 5) = Ok ceria /\
     natoms ceria = 3%nat /\
     log (slab Ase.toolkit 5 8 3 (1, 1, 1)%Z (1, 1, 1)%Z "a") =
       Bulk "CeO2" "fluorite" 5 :: Surface ceria (1, 1, 1)%Z 3 8 :: rest) /\
  (exists ceria rest,
     natoms ceria = 12%nat /\
     log (slab Ase.toolkit 5 8 3 (1, 1, 1)%Z (1, 0, 0)%Z "a") =
       Surface ceria (1, 0, 0)%Z 3 8 :: rest).
Proof.
  split.
  - destruct (slab_bulk_choice Ase.toolkit 5 8 3 (1, 1, 1)%Z (1, 1, 1)%Z "a")
      as [H _].
    destruct (H eq_refl) as [Hlog Hcount].
    destruct (ceria_primitive Ase.toolkit 5) as [l [ceria|e]] eqn:Hrun;
      [|exfalso; vm_compute in Hrun; discriminate].
    destruct (Hlog ceria eq_refl) as (rest & Hrest & _).
    exists ceria, rest. split; [reflexivity|]. split; [|exact Hrest].
    now rewrite (Hcount _ ceria eq_refl eq_refl).
  - destruct (slab_bulk_choice Ase.toolkit 5 8 3 (1, 1, 1)%Z (1, 0, 0)%Z "a")
      as [_ H].
    destruct H as [H _]; [discriminate|].
    destruct H as (ceria & rest & _ & Hn & Hrest & _); [discriminate|].
    exists ceria, rest. split; [exact Hn | exact Hrest].
Defined.

(** ** C6: any species other than ['a'] *)

Lemma slab_dry_calls (tk : Toolkit) (cellparam vacuum : Q) (layers : Z)
    (repetitions indices : Z * Z * Z) (waterspecies : string) :
  waterspecies <> "a"%string ->
  slab tk cellparam vacuum layers repetitions indices waterspecies =
    (ceria <- bulk_cell tk indices cellparam ;;
     s <- surface tk ceria indices layers vacuum ;;
     s <- repeat tk s repetitions ;;
     sort tk s) /\
  slab tk cellparam vacuum layers repetitions indices waterspecies =
    slab tk cellparam vacuum layers repetitions indices "n" /\
  forallb (fun c => negb (is_water_call c))
    (log (slab tk cellparam vacuum layers repetitions indices waterspecies))
    = true.
Proof.
  intros Hw. rewrite !slab_eq, (eqb_a_false _ Hw).
  change (String.eqb "n" "a") with false.
  pose proof (bulk_cell_log tk indices cellparam) as Hl. unfold log in *.
  destruct (bulk_cell tk indices cellparam) as [l0 [ceria|e]];
    cbn [fst] in Hl; subst l0; cbn [bind fst snd].
  - unfold surface, repeat, sort, external.
    destruct (tk_surface tk ceria indices layers vacuum) as [?|s0];
      cbn [bind fst snd ret app].
    { repeat split; destruct (is_111 indices); reflexivity. }
    destruct (tk_repeat tk s0 repetitions) as [?|s];
      cbn [bind fst snd ret app].
    { repeat split; destruct (is_111 indices); reflexivity. }
    repeat split; destruct (is_111 indices); reflexivity.
  - repeat split; destruct (is_111 indices); reflexivity.
Qed.

(** C6.  With a [waterspecies] other than ['a'], be it ['n'] or any other
    string, [slab] is the pipeline without the adsorption step: bulk
    cell, surface cut, repetition, sort.  The value is not examined any
    further: the run is the one for ['n'], and no call builds, turns or
    places a molecule. *)
Theorem slab_other_species (tk : Toolkit) (cellparam vacuum : Q) (layers : Z)
    (repetitions indices : Z * Z * Z) (waterspecies : string)
    (Hw : waterspecies <> "a"%string) :
  slab tk cellparam vacuum layers repetitions indices waterspecies =
    (ceria <- bulk_cell tk indices cellparam ;;
     s <- surface tk ceria indices layers vacuum ;;
     s <- repeat tk s repetitions ;;
     sort tk s) /\
  slab tk cellparam vacuum layers repetitions indices waterspecies =
    slab tk cellparam vacuum layers repetitions indices "n" /\
  forallb (fun c => negb (is_water_call c))
    (log (slab tk cellparam vacuum layers repetitions indices waterspecies))
    = true.
Proof.
  exact (slab_dry_calls tk cellparam vacuum layers repetitions indices
           waterspecies Hw).
Qed.

Lemma slab_other_species_witness :
  "x"%string <> "a"%string /\
  slab Demo.toolkit 5 8 3 (1, 1, 1)%Z (1, 1, 1)%Z "x" =
  slab Demo.toolkit 5 8 3 (1, 1, 1)%Z (1, 1, 1)%Z "n".
Proof.
  split; [discriminate|].
  exact (proj1 (proj2 (slab_other_species Demo.toolkit 5 8 3 (1, 1, 1)%Z
                         (1, 1, 1)%Z "x" ltac:(discriminate)))).
Defined.

(** ** The demonstration toolkit keeps the adsorption contract *)

Lemma insert_atom_perm (a : string * vec3) (l : list (string * vec3)) :
  Permutation (Demo.insert_atom a l) (a :: l).
Proof.
  induction l as [|b l IH]; cbn [Demo.insert_atom].
  - reflexivity.
  - destruct (String.leb (fst a) (fst b)); [reflexivity|].
    rewrite IH. apply perm_swap.
Qed.

Lemma sort_atoms_perm (l : list (string * vec3)) :
  Permutation (Demo.sort_atoms l) l.
Proof.
  induction l as [|a l IH]; cbn; [reflexivity|].
  rewrite insert_atom_perm. now constructor.
Qed.

Lemma map_fst_combine {A B} (l : list A) (k : list B) :
  length l = length k -> map fst (combine l k) = l.
Proof.
  revert k. induction l as [|a l IH]; intros [|b k] H; try discriminate;
    cbn; [reflexivity|]. f_equal. apply IH. now injection H.
Qed.

Lemma demo_adsorption_contract : adsorption_contract Demo.toolkit.
Proof.
  constructor; cbn [tk_molecule tk_rotate tk_add_adsorbate tk_sort Demo.toolkit].
  - intros w H. vm_compute in H. injection H as <-. split; reflexivity.
  - intros w angle v w' H. injection H as <-. split; reflexivity.
  - intros s w h xy s'. unfold Demo.add_adsorbate.
    destruct (Demo.top (positions s)); [|discriminate].
    destruct (positions w) eqn:Hw; [discriminate|].
    intros H. injection H as <-. split; [reflexivity|].
    unfold natoms. cbn [positions].
    rewrite length_app, Hw. cbn [length]. now rewrite length_map.
  - intros s s'. unfold Demo.sort.
    destruct (_ =? _)%nat eqn:E; [|discriminate].
    apply Nat.eqb_eq in E. intros H. injection H as <-.
    cbn [symbols positions natoms]. split.
    + rewrite (sort_atoms_perm (combine (symbols s) (positions s))).
      now rewrite map_fst_combine.
    + unfold natoms. cbn [positions].
      rewrite length_map, (Permutation_length (sort_atoms_perm _)).
      rewrite length_combine. lia.
Qed.

(** ** C9: how the water molecule is turned and placed *)

(** C9.  A run of [slab] with ['a'] that returns has built the molecule
    ["H2O"], turned it by 80 about z, then by -60 about x, then by 50
    about y (these three rotations and no other) and placed it on the
    tiled slab at height 2, at the in-plane coordinates of the slab's
    third atom from the end shifted by (+0.6, -0.3). *)
Theorem slab_water_placement (tk : Toolkit) (cellparam vacuum : Q)
    (layers : Z) (repetitions indices : Z * Z * Z) (l : list call)
    (r : Atoms)
    (Hrun : slab tk cellparam vacuum layers repetitions indices "a" = (l, Ok r)) :
  exists ceria s0 s w0 w1 w2 w3 anchor s',
    outcome (bulk_cell tk indices cellparam) = Ok ceria /\
    tk_surface tk ceria indices layers vacuum = inr s0 /\
    tk_repeat tk s0 repetitions = inr s /\
    tk_molecule tk "H2O" = inr w0 /\
    tk_rotate tk w0 80 "z" = inr w1 /\
    tk_rotate tk w1 (-60) "x" = inr w2 /\
    tk_rotate tk w2 50 "y" = inr w3 /\
    (3 <= natoms s)%nat /\
    positions s !! (natoms s - 3)%nat = Some anchor /\
    tk_add_adsorbate tk s w3 2 (c0 anchor + 0.6, c1 anchor - 0.3) = inr s' /\
    tk_sort tk s' = inr r /\
    l = log (bulk_cell tk indices cellparam) ++
        [Surface ceria indices layers vacuum;
         Repeat s0 repetitions;
         Molecule "H2O";
         Rotate w0 80 "z";
         Rotate w1 (-60) "x";
         Rotate w2 50 "y";
         AddAdsorbate s w3 2 (c0 anchor + 0.6, c1 anchor - 0.3);
         Sort s'].
Proof.
  destruct (slab_water_ok _ _ _ _ _ _ _ _ Hrun)
    as (ceria & s0 & s & lw & s' & Hc & Hsurf & Hrep & Hwater & Hsort & Hl).
  destruct (add_water_ok _ _ _ _ Hwater)
    as (w0 & w1 & w2 & w3 & anchor & H0 & H1 & H2 & H3 & Hn & Ha & Hads & Hlw).
  exists ceria, s0, s, w0, w1, w2, w3, anchor, s'.
  subst lw. repeat split; assumption.
Qed.

Lemma slab_water_placement_witness :
  exists l r,
    slab Demo.toolkit 5 8 3 (1, 1, 1)%Z (1, 1, 1)%Z "a" = (l, Ok r) /\
    exists s w3 anchor,
      positions s !! (natoms s - 3)%nat = Some anchor /\
      In (AddAdsorbate s w3 2 (c0 anchor + 0.6, c1 anchor - 0.3)) l.
Proof.
  destruct (slab Demo.toolkit 5 8 3 (1, 1, 1)%Z (1, 1, 1)%Z "a")
    as [l [r|e]] eqn:Hrun.
  - exists l, r. split; [reflexivity|].
    destruct (slab_water_placement _ _ _ _ _ _ _ _ Hrun)
      as (ceria & s0 & s & w0 & w1 & w2 & w3 & anchor & s' & _ & _ & _ & _ &
          _ & _ & _ & _ & Ha & _ & _ & Hl).
    exists s, w3, anchor. split; [exact Ha|].
    rewrite Hl. apply in_or_app. right. cbn. tauto.
  - exfalso. vm_compute in Hrun. discriminate.
Defined.

(** ** C5: the three atoms of the water molecule *)

(** C5.  For the same arguments, and a toolkit that keeps the adsorption
    contract, the structure [slab] returns with ['a'] has exactly 3 atoms
    more than the one it returns with a species that skips adsorption:
    its atoms are those of the other structure and one O and two H.  The
    run that skips adsorption builds and places no molecule. *)
Theorem slab_water_atoms (tk : Toolkit) (cellparam vacuum : Q) (layers : Z)
    (repetitions indices : Z * Z * Z) (waterspecies : string)
    (la ln : list call) (ra rn : Atoms)
    (Hc : adsorption_contract tk)
    (Hw : waterspecies <> "a"%string)
    (Ha : slab tk cellparam vacuum layers repetitions indices "a" = (la, Ok ra))
    (Hn : slab tk cellparam vacuum layers repetitions indices waterspecies
          = (ln, Ok rn)) :
  natoms ra = (natoms rn + 3)%nat /\
  Permutation (symbols ra) (symbols rn ++ ["O"; "H"; "H"]%string) /\
  forallb (fun c => negb (is_water_call c)) ln = true /\
  existsb is_water_call la = true.
Proof.
  destruct (slab_water_ok _ _ _ _ _ _ _ _ Ha)
    as (ceria & s0 & s & lw & s' & Hb & Hsurf & Hrep & Hwater & Hsort & Hla).
  destruct (slab_dry_ok _ _ _ _ _ _ _ _ _ Hw Hn)
    as (ceria' & s0' & t & Hb' & Hsurf' & Hrep' & Hsort' & Hln).
  rewrite Hb in Hb'. injection Hb' as <-.
  rewrite Hsurf in Hsurf'. injection Hsurf' as <-.
  rewrite Hrep in Hrep'. injection Hrep' as <-.
  destruct (add_water_ok _ _ _ _ Hwater)
    as (w0 & w1 & w2 & w3 & anchor & H0 & H1 & H2 & H3 & _ & _ & Hads & Hlw).
  destruct (molecule_water tk Hc _ H0) as [Hs0 Hn0].
  destruct (rotate_keeps tk Hc _ _ _ _ H1) as [Hs1 Hn1].
  destruct (rotate_keeps tk Hc _ _ _ _ H2) as [Hs2 Hn2].
  destruct (rotate_keeps tk Hc _ _ _ _ H3) as [Hs3 Hn3].
  destruct (adsorbate_appended tk Hc _ _ _ _ _ Hads) as [Hs4 Hn4].
  destruct (sort_permutes tk Hc _ _ Hsort) as [Hs5 Hn5].
  destruct (sort_permutes tk Hc _ _ Hsort') as [Hs6 Hn6].
  split; [lia|]. split.
  - rewrite Hs5, Hs4, Hs3, Hs2, Hs1, Hs0, Hs6. reflexivity.
  - split.
    + pose proof (proj2 (proj2 (slab_dry_calls tk cellparam vacuum layers
                                  repetitions indices waterspecies Hw))) as H.
      rewrite Hn in H. exact H.
    + subst la lw. rewrite existsb_app. apply orb_true_r.
Qed.

Lemma slab_water_atoms_witness :
  adsorption_contract Demo.toolkit /\ "n"%string <> "a"%string /\
  exists la ra ln rn,
    slab Demo.toolkit 5 8 3 (1, 1, 1)%Z (1, 1, 1)%Z "a" = (la, Ok ra) /\
    slab Demo.toolkit 5 8 3 (1, 1, 1)%Z (1, 1, 1)%Z "n" = (ln, Ok rn) /\
    natoms ra = (natoms rn + 3)%nat.
Proof.
  split; [exact demo_adsorption_contract|]. split; [discriminate|].
  destruct (slab Demo.toolkit 5 8 3 (1, 1, 1)%Z (1, 1, 1)%Z "a")
    as [la [ra|e]] eqn:Ha; [|exfalso; vm_compute in Ha; discriminate].
  destruct (slab Demo.toolkit 5 8 3 (1, 1, 1)%Z (1, 1, 1)%Z "n")
    as [ln [rn|e]] eqn:Hn; [|exfalso; vm_compute in Hn; discriminate].
  exists la, ra, ln, rn. split; [reflexivity|]. split; [reflexivity|].
  exact (proj1 (slab_water_atoms Demo.toolkit 5 8 3 (1, 1, 1)%Z (1, 1, 1)%Z
                  "n" la ln ra rn demo_adsorption_contract
                  ltac:(discriminate) Ha Hn)).
Defined.

(** ** C10: the index [-3] *)

Lemma add_water_no_index_error (tk : Toolkit) (s : Atoms) :
  (3 <= natoms s)%nat -> outcome (add_water tk s) <> Raise IndexError.
Proof.
  intros Hn. destruct (getitem_in_range s Hn) as [p Hp].
  unfold add_water, molecule, rotate, add_adsorbate, external, outcome.
  rewrite Hp. repeat next_call; discriminate.
Qed.

Lemma add_water_index_error (tk : Toolkit) (s w0 w1 w2 w3 : Atoms) :
  (natoms s < 3)%nat ->
  tk_molecule tk "H2O" = inr w0 ->
  tk_rotate tk w0 80 "z" = inr w1 ->
  tk_rotate tk w1 (-60) "x" = inr w2 ->
  tk_rotate tk w2 50 "y" = inr w3 ->
  outcome (add_water tk s) = Raise IndexError.
Proof.
  intros Hn H0 H1 H2 H3.
  unfold add_water, molecule, rotate, external, outcome.
  rewrite H0. cbn [bind fst snd]. rewrite H1. cbn [bind fst snd].
  rewrite H2. cbn [bind fst snd]. rewrite H3. cbn [bind fst snd].
  now rewrite (getitem_out_of_range s Hn).
Qed.

Lemma slab_no_index_error (tk : Toolkit) (cellparam vacuum : Q) (layers : Z)
    (repetitions indices : Z * Z * Z) (ceria s0 s : Atoms) :
  outcome (bulk_cell tk indices cellparam) = Ok ceria ->
  tk_surface tk ceria indices layers vacuum = inr s0 ->
  tk_repeat tk s0 repetitions = inr s ->
  (3 <= natoms s)%nat ->
  outcome (slab tk cellparam vacuum layers repetitions indices "a")
    <> Raise IndexError.
Proof.
  intros Hb Hsurf Hrep Hn. rewrite slab_eq. unfold outcome in *.
  destruct (bulk_cell tk indices cellparam) as [l0 r]. cbn [snd] in Hb.
  subst r. cbn [bind fst snd].
  unfold surface, repeat, sort, external.
  rewrite Hsurf. cbn [bind fst snd]. rewrite Hrep. cbn [bind fst snd].
  change (String.eqb "a" "a") with true. cbv iota.
  pose proof (add_water_no_index_error tk s Hn) as Hw. unfold outcome in Hw.
  destruct (add_water tk s) as [lw [s'|e]]; cbn [bind fst snd] in *.
  - destruct (tk_sort tk s'); discriminate.
  - exact Hw.
Qed.

(** C10.  [slab[-3]] is within bounds exactly when the slab has at least
    3 atoms, and then it is the atom third from the end.  With at least 3
    atoms in the tiled slab neither the adsorption branch nor [slab]
    raises the index error; with fewer, the branch raises it once the
    molecule is built and turned. *)
Theorem slab_anchor_index (tk : Toolkit) (s : Atoms) :
  ((exists p, getitem s (-3) = ([], Ok p)) <-> (3 <= natoms s)%nat) /\
  (forall p, getitem s (-3) = ([], Ok p) ->
             positions s !! (natoms s - 3)%nat = Some p) /\
  ((3 <= natoms s)%nat ->
     outcome (add_water tk s) <> Raise IndexError /\
     forall cellparam vacuum layers repetitions indices ceria s0,
       outcome (bulk_cell tk indices cellparam) = Ok ceria ->
       tk_surface tk ceria indices layers vacuum = inr s0 ->
       tk_repeat tk s0 repetitions = inr s ->
       outcome (slab tk cellparam vacuum layers repetitions indices "a")
         <> Raise IndexError) /\
  ((natoms s < 3)%nat ->
     getitem s (-3) = ([], Raise IndexError) /\
     forall w0 w1 w2 w3,
       tk_molecule tk "H2O" = inr w0 ->
       tk_rotate tk w0 80 "z" = inr w1 ->
       tk_rotate tk w1 (-60) "x" = inr w2 ->
       tk_rotate tk w2 50 "y" = inr w3 ->
       outcome (add_water tk s) = Raise IndexError).
Proof.
  split; [|split; [|split]].
  - split.
    + intros [p Hp]. now apply getitem_third_last in Hp.
    + apply getitem_in_range.
  - intros p Hp. now apply getitem_third_last in Hp.
  - intros Hn. split; [now apply add_water_no_index_error|].
    intros. eapply slab_no_index_error; eassumption.
  - intros Hn. split; [now apply getitem_out_of_range|].
    intros. eapply add_water_index_error; eassumption.
Qed.

Lemma slab_anchor_index_witness :
  (3 <= natoms Demo.trio)%nat /\
  (natoms Demo.cell10 < 3)%nat /\
  outcome (add_water Demo.toolkit Demo.trio) <> Raise IndexError /\
  outcome (add_water Demo.toolkit Demo.cell10) = Raise IndexError.
Proof.
  split; [vm_compute; lia|]. split; [vm_compute; lia|]. split.
  - destruct (slab_anchor_index Demo.toolkit Demo.trio) as (_ & _ & H & _).
    apply H. vm_compute. lia.
  - destruct (slab_anchor_index Demo.toolkit Demo.cell10) as (_ & _ & _ & H).
    destruct H as [_ H]; [vm_compute; lia|].
    eapply H; reflexivity.
Defined.

(** * Further properties of the builders *)

(** ** [orthogonalize_111]: what is kept *)

(** X1.  [orthogonalize_111] keeps the symbols, the periodicity flags and
    the number of atoms, and of the lattice matrix it changes the (1,0)
    entry only. *)
Theorem orthogonalize_111_keeps (s : Atoms) :
  symbols (orthogonalize_111 s) = symbols s /\
  pbc (orthogonalize_111 s) = pbc s /\
  natoms (orthogonalize_111 s) = natoms s /\
  forall i j, mget (cell (orthogonalize_111 s)) i j =
              match i, j with
              | A1, A0 => 0
              | _, _ => mget (cell s) i j
              end.
Proof.
  rewrite orthogonalize_111_eq. cbn [symbols pbc cell].
  repeat split.
  - unfold natoms. cbn [positions]. apply length_map.
  - intros [] []; reflexivity.
Qed.

(** A structure whose atoms are wrapped keeps its positions. *)
Lemma orthogonalize_111_wrapped (s : Atoms) :
  wrapped s ->
  orthogonalize_111 s = set_cell s (mset (cell s) A1 A0 0).
Proof.
  intros Hw. rewrite orthogonalize_111_eq. unfold set_cell. f_equal.
  apply list_eq. intros i. rewrite list_lookup_fmap.
  destruct (positions s !! i) as [p|] eqn:Hp; [|reflexivity].
  change (Some (wrap_row (mset (cell s) A1 A0 0) p) = Some p).
  rewrite (wrap_row_fixed _ p); [reflexivity|]. intros d.
  rewrite mset_diag. exact (Hw i p d Hp).
Qed.

Lemma mset_zero_id (m : mat3) :
  mget m A1 A0 = 0 -> mset m A1 A0 0 = m.
Proof.
  destruct m as [v0 [x y z] v2]. unfold mget. cbn. now intros ->.
Qed.

(** X3.  A structure whose atoms are wrapped and whose (1,0) lattice entry
    is already zero is returned as it is. *)
Theorem orthogonalize_111_fixed (s : Atoms)
    (Hw : wrapped s) (Hzero : mget (cell s) A1 A0 = 0) :
  orthogonalize_111 s = s.
Proof.
  rewrite (orthogonalize_111_wrapped s Hw), (mset_zero_id _ Hzero).
  unfold set_cell. now destruct s.
Qed.

Lemma orthogonalize_111_fixed_witness :
  orthogonalize_111
    (mkAtoms ["Ce"]%string [Vec3 1 2 3] (diag_cell 10 10 10) (true, true, false))
  = mkAtoms ["Ce"]%string [Vec3 1 2 3] (diag_cell 10 10 10) (true, true, false).
Proof.
  apply orthogonalize_111_fixed; [|reflexivity].
  intros i p d Hp. destruct i as [|i]; cbn in Hp; [|discriminate].
  injection Hp as <-. destruct d; reflexivity.
Defined.

(** X4.  Along an axis whose diagonal length [L] is not negative, a
    coordinate that is a double is never raised, and one that lies at or
    above [L] does not become negative. *)
Theorem orthogonalize_111_moves_down (s : Atoms) (i : nat) (p : vec3)
    (d : axis) (Hp : positions s !! i = Some p)
    (HL : 0 <= mget (cell s) d d) (Hx : double (vget p d)) :
  exists p', positions (orthogonalize_111 s) !! i = Some p' /\
    vget p' d <= vget p d /\
    (mget (cell s) d d <= vget p d -> 0 <= vget p' d).
Proof.
  destruct (orthogonalize_111_coord s i p Hp) as (p' & Hp' & Hc).
  exists p'. split; [exact Hp'|]. rewrite Hc. unfold wrap_coord.
  destruct Hx as [Hx _].
  destruct (geb _ _).
  - split.
    + rewrite <- Hx at 2. apply round64_mono. lra.
    + intros Hge. change 0 with (round64 0). apply round64_mono. lra.
  - split; [lra|]. intros Hge. lra.
Qed.

Lemma orthogonalize_111_moves_down_witness :
  exists p', positions (orthogonalize_111 (Demo.one_atom 10 20)) !! 0%nat = Some p' /\
    vget p' A0 <= 20 /\ 0 <= vget p' A0.
Proof.
  destruct (orthogonalize_111_moves_down (Demo.one_atom 10 20) 0 (Vec3 20 0 0) A0
              eq_refl) as (p' & Hp' & Hle & Hge).
  - discriminate.
  - split; vm_compute; [reflexivity|discriminate].
  - exists p'. split; [exact Hp'|]. split; [exact Hle|].
    apply Hge. discriminate.
Defined.

(** ** [orthogonalize_111]: the lattice it produces *)

(** X5.  When the first lattice vector lies along the first axis (its
    other two components are zero), zeroing the (1,0) entry keeps the
    determinant of the lattice matrix, that is the volume of the cell. *)
Theorem orthogonalize_111_volume (s : Atoms)
    (H01 : mget (cell s) A0 A1 == 0) (H02 : mget (cell s) A0 A2 == 0) :
  det (cell (orthogonalize_111 s)) == det (cell s).
Proof.
  rewrite orthogonalize_111_cell.
  destruct (cell s) as [[a00 a01 a02] [a10 a11 a12] [a20 a21 a22]].
  unfold mget in H01, H02. cbn in H01, H02.
  unfold det, dot, cross, mset. cbn [vset c0 c1 c2 r0 r1 r2].
  rewrite H01, H02. ring.
Qed.

Lemma orthogonalize_111_volume_witness :
  det (cell (orthogonalize_111 Demo.cell10)) == det (cell Demo.cell10).
Proof.
  apply orthogonalize_111_volume; reflexivity.
Defined.

(** X6.  When (1,0) is the only entry off the diagonal that is not zero,
    the lattice matrix comes out diagonal: its three vectors are
    orthogonal to each other. *)
Theorem orthogonalize_111_orthogonal (s : Atoms)
    (H01 : mget (cell s) A0 A1 == 0) (H02 : mget (cell s) A0 A2 == 0)
    (H12 : mget (cell s) A1 A2 == 0)
    (H20 : mget (cell s) A2 A0 == 0) (H21 : mget (cell s) A2 A1 == 0) :
  let m := cell (orthogonalize_111 s) in
  (forall i j, i <> j -> mget m i j == 0) /\
  dot (r0 m) (r1 m) == 0 /\ dot (r0 m) (r2 m) == 0 /\ dot (r1 m) (r2 m) == 0.
Proof.
  cbv zeta. rewrite orthogonalize_111_cell.
  destruct (cell s) as [[a00 a01 a02] [a10 a11 a12] [a20 a21 a22]].
  unfold mget in *. cbn in H01, H02, H12, H20, H21.
  unfold dot, mset. cbn [vset row vget c0 c1 c2 r0 r1 r2].
  split.
  - intros [] [] Hij; cbn; try congruence; try assumption; reflexivity.
  - rewrite H01, H02, H12, H20, H21. repeat split; ring.
Qed.

Lemma orthogonalize_111_orthogonal_witness :
  dot (r0 (cell (orthogonalize_111 Demo.cell10)))
      (r1 (cell (orthogonalize_111 Demo.cell10))) == 0 /\
  ~ dot (r0 (cell Demo.cell10)) (r1 (cell Demo.cell10)) == 0.
Proof.
  split; [|discriminate].
  exact (proj1 (proj2 (orthogonalize_111_orthogonal Demo.cell10
    ltac:(reflexivity) ltac:(reflexivity) ltac:(reflexivity)
    ltac:(reflexivity) ltac:(reflexivity)))).
Defined.

(** ** [ceria_primitive] on any structure the constructor returns *)

Lemma mod1_range (x : Q) : 0 <= mod1 x /\ mod1 x < 1.
Proof.
  unfold mod1. pose proof (Qfloor_le x) as Hle.
  pose proof (Qlt_floor x) as Hlt. rewrite inject_Z_plus in Hlt.
  change (inject_Z 1) with 1 in Hlt. split; lra.
Qed.

Lemma wrap_pbc_in_cell (flags : bool * bool * bool) (f : vec3) :
  in_cell flags (wrap_pbc flags f).
Proof.
  destruct flags as [[[] []] []]; unfold in_cell, wrap_pbc, in_unit, wrap_axis;
    cbn [c0 c1 c2];
    (split; [|split]); intros Hflag; try discriminate Hflag; apply mod1_range.
Qed.

Lemma half_in_cell (flags : bool * bool * bool) :
  in_cell flags (Vec3 0.5 0.5 0.5).
Proof.
  destruct flags as [[p0 p1] p2]. unfold in_cell, in_unit. cbn [c0 c1 c2].
  intuition lra.
Qed.

Lemma cartesian_half (m : mat3) : veq (cartesian m (Vec3 0.5 0.5 0.5)) (centre m).
Proof.
  unfold veq, cartesian, centre. cbn [c0 c1 c2]. repeat split; field.
Qed.

(** X7.  Whatever structure the bulk constructor returns, with an
    invertible cell and at least one atom, [ceria_primitive] returns it
    with the same number of atoms, symbols, cell and periodicity flags,
    and with atom 0 at the centre of the cell. *)
Theorem ceria_primitive_any_cell (tk : Toolkit) (cellparam : Q) (b : Atoms)
    (Hb : tk_bulk tk "CeO2" "fluorite" cellparam = inr b)
    (Hd : ~ det (cell b) == 0) (Hn : (0 < natoms b)%nat) :
  exists ceria p0,
    ceria_primitive tk cellparam =
      ([Bulk "CeO2" "fluorite" cellparam], Ok ceria) /\
    natoms ceria = natoms b /\ symbols ceria = symbols b /\
    cell ceria = cell b /\ pbc ceria = pbc b /\
    positions ceria !! 0%nat = Some p0 /\ veq p0 (centre (cell b)).
Proof.
  eexists. exists (cartesian (cell b) (Vec3 0.5 0.5 0.5)).
  split; [exact (ceria_primitive_eq tk cellparam b Hb Hd Hn)|].
  rewrite (set_scaled_positions_eq b _ Hd).
  unfold set_positions, natoms in *.
  cbn [positions symbols cell pbc].
  split; [now rewrite length_map, length_insert, length_map|].
  do 3 (split; [reflexivity|]). split; [|apply cartesian_half].
  rewrite list_lookup_fmap, list_lookup_insert_eq; [reflexivity|].
  rewrite length_map. exact Hn.
Qed.

Lemma fluorite_det : ~ det (Mat3 (Vec3 0 (5 / 2) (5 / 2)) (Vec3 (5 / 2) 0 (5 / 2))
                                 (Vec3 (5 / 2) (5 / 2) 0)) == 0.
Proof. intros H. vm_compute in H. discriminate. Defined.

Lemma ceria_primitive_any_cell_witness :
  exists ceria p0,
    ceria_primitive Fluorite.toolkit 5 =
      ([Bulk "CeO2" "fluorite" 5], Ok ceria) /\
    natoms ceria = 3%nat /\
    positions ceria !! 0%nat = Some p0 /\ veq p0 (Vec3 (5 / 2) (5 / 2) (5 / 2)).
Proof.
  destruct (ceria_primitive_any_cell Fluorite.toolkit 5 _ eq_refl fluorite_det
              ltac:(vm_compute; lia))
    as (ceria & p0 & Hrun & Hn & _ & _ & _ & Hp & Hc).
  exists ceria, p0. split; [exact Hrun|]. split; [exact Hn|].
  split; [exact Hp|].
  eapply veq_trans; [exact Hc|]. repeat split; reflexivity.
Defined.

(** X8.  Under the same conditions every atom of the structure
    [ceria_primitive] returns has its fractional coordinates in [[0, 1)]
    along the periodic axes: atoms the constructor gave outside the cell
    come back inside it. *)
Theorem ceria_primitive_in_cell (tk : Toolkit) (cellparam : Q) (b : Atoms)
    (Hb : tk_bulk tk "CeO2" "fluorite" cellparam = inr b)
    (Hd : ~ det (cell b) == 0) (Hn : (0 < natoms b)%nat) :
  exists ceria,
    outcome (ceria_primitive tk cellparam) = Ok ceria /\ well_formed ceria.
Proof.
  eexists. unfold outcome.
  rewrite (ceria_primitive_eq tk cellparam b Hb Hd Hn). split; [reflexivity|].
  rewrite (set_scaled_positions_eq b _ Hd).
  unfold well_formed, set_positions.
  cbn [positions cell pbc]. split; [exact Hd|].
  intros i p Hp. rewrite list_lookup_fmap in Hp.
  destruct (_ !! i) as [f|] eqn:Hf; [|discriminate]. injection Hp as <-.
  apply (in_cell_fractional _ _ _ f Hd (veq_refl _)).
  destruct i as [|i].
  - rewrite list_lookup_insert_eq in Hf by (rewrite length_map; exact Hn).
    injection Hf as <-. apply half_in_cell.
  - rewrite list_lookup_insert_ne, list_lookup_fmap in Hf by discriminate.
    destruct (positions b !! S i); [|discriminate].
    injection Hf as <-. apply wrap_pbc_in_cell.
Qed.

Lemma ceria_primitive_in_cell_witness :
  ~ in_cell (true, true, true)
      (fractional (Mat3 (Vec3 0 (5 / 2) (5 / 2)) (Vec3 (5 / 2) 0 (5 / 2))
                        (Vec3 (5 / 2) (5 / 2) 0))
                  (Vec3 (3 * 5 / 4) (5 * 5 / 4) (5 * 5 / 4))) /\
  exists ceria,
    outcome (ceria_primitive Fluorite.toolkit 5) = Ok ceria /\
    well_formed ceria.
Proof.
  split.
  - intros (H & _ & _). destruct (H eq_refl) as [_ H1].
    vm_compute in H1. discriminate.
  - exact (ceria_primitive_in_cell Fluorite.toolkit 5 _ eq_refl fluorite_det
             ltac:(vm_compute; lia)).
Defined.

(** X9.  When the bulk constructor returns a structure without atoms
    whose cell is invertible or entirely zero, the assignment to row 0 of
    the scaled positions raises the index error; [slab] with indices
    (1,1,1) then stops there, before the surface cutter is called. *)
Theorem ceria_primitive_no_atoms (tk : Toolkit) (cellparam : Q) (b : Atoms)
    (Hb : tk_bulk tk "CeO2" "fluorite" cellparam = inr b)
    (Hd : ~ det (cell b) == 0 \/ rank (cell b) = 0%nat)
    (Hn : natoms b = 0%nat) :
  ceria_primitive tk cellparam =
    ([Bulk "CeO2" "fluorite" cellparam], Raise IndexError) /\
  forall vacuum layers repetitions waterspecies,
    slab tk cellparam vacuum layers repetitions (1, 1, 1)%Z waterspecies =
      ([Bulk "CeO2" "fluorite" cellparam], Raise IndexError).
Proof.
  assert (Hc : ~ det (complete (cell b)) == 0).
  { destruct Hd as [Hd|Hz].
    - now rewrite (complete_invertible _ Hd).
    - rewrite (complete_zero _ Hz). intros H. vm_compute in H. discriminate. }
  assert (H : ceria_primitive tk cellparam =
              ([Bulk "CeO2" "fluorite" cellparam], Raise IndexError)).
  { unfold ceria_primitive, bulk. rewrite Hb, external_ok.
    cbn [bind fst snd]. unfold get_scaled_positions. cbv zeta.
    destruct (Qeq_bool (det (complete (cell b))) 0) eqn:E.
    { apply Qeq_bool_iff in E. contradiction. }
    cbn [bind fst snd ret]. unfold setitem. rewrite length_map.
    unfold natoms in Hn. rewrite Hn. reflexivity. }
  split; [exact H|]. intros. rewrite slab_eq. unfold bulk_cell.
  cbn [is_111 Z.eqb Pos.eqb andb]. now rewrite H.
Qed.

Lemma ceria_primitive_no_atoms_witness :
  slab Fluorite.empty_toolkit 5 8 3 (1, 1, 1)%Z (1, 1, 1)%Z "a" =
    ([Bulk "CeO2" "fluorite" 5], Raise IndexError) /\
  slab Fluorite.zero_toolkit 5 8 3 (1, 1, 1)%Z (1, 1, 1)%Z "a" =
    ([Bulk "CeO2" "fluorite" 5], Raise IndexError).
Proof.
  split.
  - apply (ceria_primitive_no_atoms Fluorite.empty_toolkit 5 _ eq_refl).
    + left. intros H. vm_compute in H. discriminate.
    + reflexivity.
  - apply (ceria_primitive_no_atoms Fluorite.zero_toolkit 5 _ eq_refl).
    + right. reflexivity.
    + reflexivity.
Defined.

(** ** [slab]: the order of the calls *)

Lemma filter_log_bind {A B} (P : call -> bool) (m : M A) (f : A -> M B) :
  (forall a, List.filter P (log (f a)) = []) ->
  List.filter P (log (bind m f)) = List.filter P (log m).
Proof.
  intros Hf. destruct m as [l [a|e]]; [|reflexivity].
  unfold log in *. cbn [bind fst snd].
  now rewrite List.filter_app, Hf, app_nil_r.
Qed.

Lemma filter_log_external (P : call -> bool) (c : call) (r : string + Atoms) :
  P c = false -> List.filter P (log (external c r)) = [].
Proof. intros H. unfold external, log. cbn. now rewrite H. Qed.

Lemma filter_bulk_add_water (tk : Toolkit) (s : Atoms) :
  List.filter is_bulk_call (log (add_water tk s)) = [].
Proof.
  unfold add_water, molecule, rotate, add_adsorbate.
  rewrite filter_log_bind; [now apply filter_log_external|]. intros w0.
  rewrite filter_log_bind; [now apply filter_log_external|]. intros w1.
  rewrite filter_log_bind; [now apply filter_log_external|]. intros w2.
  rewrite filter_log_bind; [now apply filter_log_external|]. intros w3.
  rewrite filter_log_bind; [now rewrite getitem_log|]. intros ax.
  rewrite filter_log_bind; [now rewrite getitem_log|]. intros ay.
  now apply filter_log_external.
Qed.

(** X11.  [slab] calls the bulk constructor once, for the fluorite
    prototype of CeO2 at the given lattice parameter, when the indices
    are (1,1,1), and never for other indices, whatever else happens in the
    run. *)
Theorem slab_bulk_calls (tk : Toolkit) (cellparam vacuum : Q) (layers : Z)
    (repetitions indices : Z * Z * Z) (waterspecies : string) :
  List.filter is_bulk_call
    (log (slab tk cellparam vacuum layers repetitions indices waterspecies)) =
  if is_111 indices then [Bulk "CeO2" "fluorite" cellparam] else [].
Proof.
  rewrite slab_eq, filter_log_bind.
  - rewrite bulk_cell_log. now destruct (is_111 indices).
  - intros ceria. unfold surface, repeat, sort.
    rewrite filter_log_bind; [now apply filter_log_external|]. intros s0.
    rewrite filter_log_bind; [now apply filter_log_external|]. intros s.
    rewrite filter_log_bind.
    + destruct (String.eqb waterspecies "a");
        [apply filter_bulk_add_water | reflexivity].
    + intros s'. now apply filter_log_external.
Qed.

(** X12.  With ['a'] and a tiled slab of fewer than 3 atoms, [slab] raises
    the index error after the molecule has been built and turned three
    times; nothing is placed and nothing is sorted. *)
Theorem slab_short_slab (tk : Toolkit) (cellparam vacuum : Q) (layers : Z)
    (repetitions indices : Z * Z * Z) (ceria s0 s w0 w1 w2 w3 : Atoms)
    (Hb : outcome (bulk_cell tk indices cellparam) = Ok ceria)
    (Hsurf : tk_surface tk ceria indices layers vacuum = inr s0)
    (Hrep : tk_repeat tk s0 repetitions = inr s)
    (Hn : (natoms s < 3)%nat)
    (H0 : tk_molecule tk "H2O" = inr w0)
    (H1 : tk_rotate tk w0 80 "z" = inr w1)
    (H2 : tk_rotate tk w1 (-60) "x" = inr w2)
    (H3 : tk_rotate tk w2 50 "y" = inr w3) :
  slab tk cellparam vacuum layers repetitions indices "a" =
  (log (bulk_cell tk indices cellparam) ++
   [Surface ceria indices layers vacuum; Repeat s0 repetitions;
    Molecule "H2O"; Rotate w0 80 "z"; Rotate w1 (-60) "x"; Rotate w2 50 "y"],
   Raise IndexError).
Proof.
  rewrite slab_eq. unfold outcome, log in *.
  destruct (bulk_cell tk indices cellparam) as [l0 r]. cbn [fst snd] in *.
  subst r. cbn [bind fst snd].
  unfold surface, repeat, external.
  rewrite Hsurf. cbn [bind fst snd]. rewrite Hrep. cbn [bind fst snd].
  change (String.eqb "a" "a") with true. cbv iota.
  unfold add_water, molecule, rotate, external.
  rewrite H0. cbn [bind fst snd]. rewrite H1. cbn [bind fst snd].
  rewrite H2. cbn [bind fst snd]. rewrite H3. cbn [bind fst snd].
  rewrite (getitem_out_of_range s Hn). reflexivity.
Qed.

Lemma slab_short_slab_witness :
  exists l,
    slab Demo.toolkit 5 8 1 (1, 1, 1)%Z (1, 1, 1)%Z "a" = (l, Raise IndexError) /\
    map is_water_call l = [false; false; false; true; true; true; true].
Proof.
  eexists. split.
  - exact (slab_short_slab Demo.toolkit 5 8 1 (1, 1, 1)%Z (1, 1, 1)%Z
             _ _ _ _ _ _ _ eq_refl eq_refl eq_refl
             ltac:(vm_compute; lia) eq_refl eq_refl eq_refl eq_refl).
  - reflexivity.
Defined.

(** ** [ceria_crystallographic]: where the atoms are *)

(** Case analysis on an index into the 12 atoms. *)
Ltac atom_of i E H :=
  rewrite E in H;
  do 12 (try (destruct i as [|i]));
  cbn [map lookup list_lookup] in H;
  [injection H as <- ..| discriminate H].

Lemma crystallographic_run (cellparam : Q) :
  ~ cellparam == 0 ->
  exists ceria,
    ceria_crystallographic cellparam = ([], Ok ceria) /\
    positions ceria =
    map (cartesian (diag_cell cellparam cellparam cellparam))
      [ Vec3 0 0 0; Vec3 0.5 0.5 0; Vec3 0.5 0 0.5; Vec3 0 0.5 0.5;
        Vec3 0.25 0.25 0.25; Vec3 0.25 0.25 0.75; Vec3 0.25 0.75 0.25;
        Vec3 0.75 0.25 0.25; Vec3 0.25 0.75 0.75; Vec3 0.75 0.25 0.75;
        Vec3 0.75 0.75 0.25; Vec3 0.75 0.75 0.75 ].
Proof.
  intros Ha. destruct (crystallographic_ok cellparam Ha) as [ceria Hrun].
  exists ceria. split; [exact Hrun|].
  apply crystallographic_positions. unfold outcome. now rewrite Hrun.
Qed.

(** X13.  For a positive lattice parameter [ceria_crystallographic]
    returns, and every atom of the conventional cell lies inside the cube:
    each Cartesian coordinate is at least 0 and below the lattice
    parameter. *)
Theorem ceria_crystallographic_inside (cellparam : Q) (Hpos : 0 < cellparam) :
  exists ceria,
    ceria_crystallographic cellparam = ([], Ok ceria) /\
    forall i p d, positions ceria !! i = Some p ->
      0 <= vget p d /\ vget p d < cellparam.
Proof.
  destruct (crystallographic_run cellparam) as (ceria & Hrun & E); [lra|].
  exists ceria. split; [exact Hrun|]. intros i p d Hp.
  atom_of i E Hp; destruct d;
    unfold cartesian, diag_cell; cbn [vget c0 c1 c2 r0 r1 r2]; split; lra.
Qed.

Lemma ceria_crystallographic_inside_witness :
  exists ceria,
    ceria_crystallographic 5 = ([], Ok ceria) /\
    forall i p d, positions ceria !! i = Some p ->
      0 <= vget p d /\ vget p d < 5.
Proof. exact (ceria_crystallographic_inside 5 eq_refl). Defined.

(** X14.  When the lattice parameter is not zero [ceria_crystallographic]
    returns and no two atoms of the conventional cell share a position;
    when it is zero the constructor's assertion on the rank of the cell
    fails. *)
Theorem ceria_crystallographic_distinct (cellparam : Q) :
  (~ cellparam == 0 ->
   exists ceria,
     ceria_crystallographic cellparam = ([], Ok ceria) /\
     forall i j p q, i <> j ->
       positions ceria !! i = Some p -> positions ceria !! j = Some q ->
       ~ veq p q) /\
  (cellparam == 0 ->
   ceria_crystallographic cellparam = ([], Raise AssertionError)).
Proof.
  split.
  - intros Ha. destruct (crystallographic_run cellparam Ha) as (ceria & Hrun & E).
    exists ceria. split; [exact Hrun|].
    intros i j p q Hij Hp Hq (E0 & E1 & E2). apply Ha.
    atom_of i E Hp; atom_of j E Hq; try (exfalso; apply Hij; reflexivity);
      unfold cartesian, diag_cell in E0, E1, E2;
      cbn [c0 c1 c2 r0 r1 r2] in E0, E1, E2; lra.
  - intros Ha. unfold ceria_crystallographic, Atoms_scaled.
    now rewrite (rank_zero _ Ha).
Qed.

Lemma ceria_crystallographic_distinct_witness :
  (exists ceria,
     ceria_crystallographic 5 = ([], Ok ceria) /\
     forall i j p q, i <> j ->
       positions ceria !! i = Some p -> positions ceria !! j = Some q ->
       ~ veq p q) /\
  ceria_crystallographic 0 = ([], Raise AssertionError).
Proof.
  split.
  - apply (proj1 (ceria_crystallographic_distinct 5)). discriminate.
  - apply (proj2 (ceria_crystallographic_distinct 0)). reflexivity.
Defined.
